(** * Address book: contact records, field validation, upcoming birthdays

    A shallow embedding of [address_book.py] and the properties of its
    field validators ([Phone], [Birthday]), of the contact record
    ([Record]) and of the directory ([AddressBook]).

    Python values are modelled as follows.
    - A [str] is the list of its Unicode code points.
    - An [int] is a [Z].
    - An exception is a constructor of [exn]; a call either returns or
      raises ([outcome]).
    - A method of a mutable object takes the object's state and gives back
      its result together with the state it leaves behind ([method]).
    - [datetime.now()] is an input of the functions that read the clock. *)

From Stdlib Require Import ZArith List Bool Lia String Ascii.
Import ListNotations.
Open Scope Z_scope.

(* ================================================================= *)
(** ** Strings *)

Definition str := list Z.

(** A literal of the source: the code points of an ASCII text. *)
Definition lit (s : string) : str :=
  map (fun a => Z.of_N (N_of_ascii a)) (list_ascii_of_string s).

Fixpoint str_eqb (s t : str) : bool :=
  match s, t with
  | [], [] => true
  | c :: s', d :: t' => (c =? d) && str_eqb s' t'
  | _, _ => false
  end.

(** [len(s)] *)
Definition len {A} (s : list A) : Z := Z.of_nat (List.length s).

(** [sep.join(parts)] *)
Fixpoint join (sep : str) (parts : list str) : str :=
  match parts with
  | [] => []
  | [p] => p
  | p :: ps => p ++ sep ++ join sep ps
  end.

(** *** The Unicode character database (version 14.0, as in CPython 3.11)

    [decimal_zeros] lists the digit zero of every run of ten decimal
    digits (general category Nd); [other_digits] lists the ranges of the
    characters that are digits without being decimal (superscripts,
    circled digits and the like). *)

Definition decimal_zeros : list Z :=
  [48; 1632; 1776; 1984; 2406; 2534; 2662; 2790; 2918; 3046; 3174; 3302;
   3430; 3558; 3664; 3792; 3872; 4160; 4240; 6112; 6160; 6470; 6608; 6784;
   6800; 6992; 7088; 7232; 7248; 42528; 43216; 43264; 43472; 43504; 43600;
   44016; 65296; 66720; 68912; 69734; 69872; 69942; 70096; 70384; 70736;
   70864; 71248; 71360; 71472; 71904; 72016; 72784; 73040; 73120; 92768;
   92864; 93008; 120782; 120792; 120802; 120812; 120822; 123200; 123632;
   125264; 130032].

Definition other_digits : list (Z * Z) :=
  [(178, 179); (185, 185); (4969, 4977); (6618, 6618); (8304, 8304);
   (8308, 8313); (8320, 8329); (9312, 9320); (9332, 9340); (9352, 9360);
   (9450, 9450); (9461, 9469); (9471, 9471); (10102, 10110);
   (10112, 10120); (10122, 10130); (68160, 68163); (69216, 69224);
   (69714, 69722); (127232, 127242)].

Fixpoint decimal_in (zeros : list Z) (c : Z) : option Z :=
  match zeros with
  | [] => None
  | z :: zs => if (z <=? c) && (c <=? z + 9) then Some (c - z)
               else decimal_in zs c
  end.

(** [unicodedata.decimal(c)], [None] when [c] is no decimal digit. *)
Definition decimal_value (c : Z) : option Z := decimal_in decimal_zeros c.

(** What the regular expression [\d] matches in a [str] pattern. *)
Definition char_isdecimal (c : Z) : bool :=
  match decimal_value c with Some _ => true | None => false end.

Definition in_range (c : Z) (r : Z * Z) : bool :=
  (fst r <=? c) && (c <=? snd r).

Definition char_isdigit (c : Z) : bool :=
  char_isdecimal c || existsb (in_range c) other_digits.

(** [s.isdigit()]: every character is a digit and there is at least one. *)
Definition isdigit (s : str) : bool :=
  match s with
  | [] => false
  | _ => forallb char_isdigit s
  end.

(** [str(n)] for an [int]. *)
Fixpoint digits_fuel (fuel : nat) (n : Z) (acc : str) : str :=
  match fuel with
  | O => acc
  | S f => if n <? 10 then (48 + n) :: acc
           else digits_fuel f (n / 10) ((48 + n mod 10) :: acc)
  end.

Definition str_of_nonneg (n : Z) : str :=
  digits_fuel (S (Z.to_nat (Z.log2 n))) n [].

Definition str_of_int (n : Z) : str :=
  if n <? 0 then 45 :: str_of_nonneg (- n) else str_of_nonneg n.

(** [n] zero-padded to two places, as [%m] and [%d] print it. *)
Definition pad2 (n : Z) : str :=
  if n <? 10 then 48 :: str_of_int n else str_of_int n.

(* ================================================================= *)
(** ** Exceptions and results *)

(** The messages of the [ValueError]s the program can meet. *)
Inductive value_error : Type :=
| PhoneDigits        (* "Phone number must contain 10 digits" *)
| InvalidDateFormat  (* "Invalid date format. Use DD.MM.YYYY" *)
| TimeDataMismatch   (* "time data ... does not match format ..." *)
| UnconvertedData    (* "unconverted data remains: ..." *)
| DateOutOfRange     (* "day is out of range for month", "year 0 is out of range" *)
| UnpackMismatch.    (* "not enough values to unpack", "too many values to unpack" *)

Inductive exn : Type :=
| ValueError (msg : value_error)
| IndexError
| AttributeError
| KeyError
| OverflowError.

Inductive outcome (A : Type) : Type :=
| Returned (a : A)
| Raised (e : exn).
Arguments Returned {A} a.
Arguments Raised {A} e.

Definition bind {A B} (m : outcome A) (k : A -> outcome B) : outcome B :=
  match m with
  | Returned a => k a
  | Raised e => Raised e
  end.

Notation "x <- m ;; k" := (bind m (fun x => k))
  (at level 61, m at next level, right associativity).

(* ================================================================= *)
(** ** Calendar: [datetime.date], [datetime.datetime], [timedelta] *)

Record date : Type := mkdate { year : Z; month : Z; day : Z }.

Record datetime : Type := mkdatetime {
  dt_date : date;
  hour : Z;
  minute : Z;
  second : Z;
  microsecond : Z
}.

Definition MINYEAR : Z := 1.
Definition MAXYEAR : Z := 9999.

Definition _is_leap (y : Z) : bool :=
  (y mod 4 =? 0) && (negb (y mod 100 =? 0) || (y mod 400 =? 0)).

Definition _days_before_year (y : Z) : Z :=
  let y' := y - 1 in
  y' * 365 + y' / 4 - y' / 100 + y' / 400.

Definition _DAYS_IN_MONTH : list Z :=
  [31; 28; 31; 30; 31; 30; 31; 31; 30; 31; 30; 31].

Definition _days_in_month (y m : Z) : Z :=
  if (m =? 2) && _is_leap y then 29
  else nth (Z.to_nat (m - 1)) _DAYS_IN_MONTH 0.

Definition _DAYS_BEFORE_MONTH : list Z :=
  [0; 31; 59; 90; 120; 151; 181; 212; 243; 273; 304; 334].

Definition _days_before_month (y m : Z) : Z :=
  nth (Z.to_nat (m - 1)) _DAYS_BEFORE_MONTH 0
  + (if (2 <? m) && _is_leap y then 1 else 0).

Definition _ymd2ord (y m d : Z) : Z :=
  _days_before_year y + _days_before_month y m + d.

Definition toordinal (d : date) : Z := _ymd2ord (year d) (month d) (day d).

(** Monday is 0, Sunday is 6. *)
Definition weekday (d : date) : Z := (toordinal d + 6) mod 7.

(** The check of the fields that the constructor [date(y, m, d)] makes. *)
Definition valid_date (d : date) : bool :=
  (MINYEAR <=? year d) && (year d <=? MAXYEAR)
  && (1 <=? month d) && (month d <=? 12)
  && (1 <=? day d) && (day d <=? _days_in_month (year d) (month d)).

Definition new_date (y m d : Z) : outcome date :=
  if valid_date (mkdate y m d) then Returned (mkdate y m d)
  else Raised (ValueError DateOutOfRange).

Definition midnight (d : date) : datetime := mkdatetime d 0 0 0 0.

(** The day after [d]; there is none after 31 December 9999. *)
Definition next_day (d : date) : outcome date :=
  if day d <? _days_in_month (year d) (month d)
  then Returned (mkdate (year d) (month d) (day d + 1))
  else if month d <? 12 then Returned (mkdate (year d) (month d + 1) 1)
  else if year d <? MAXYEAR then Returned (mkdate (year d + 1) 1 1)
  else Raised OverflowError.

Fixpoint add_days (d : date) (n : nat) : outcome date :=
  match n with
  | O => Returned d
  | S n' => d' <- next_day d ;; add_days d' n'
  end.

(** [dt + timedelta(days=n)] for [n >= 0]: the time of day is kept. *)
Definition datetime_add_days (dt : datetime) (n : Z) : outcome datetime :=
  d' <- add_days (dt_date dt) (Z.to_nat n) ;;
  Returned (mkdatetime d' (hour dt) (minute dt) (second dt) (microsecond dt)).

(** A [timedelta], normalised as its constructor does:
    [0 <= seconds < 86400] and [0 <= microseconds < 1000000]. *)
Record timedelta : Type := mktimedelta {
  days : Z;
  seconds : Z;
  microseconds : Z
}.

Definition new_timedelta (d s us : Z) : timedelta :=
  let s1 := s + us / 1000000 in
  mktimedelta (d + s1 / 86400) (s1 mod 86400) (us mod 1000000).

Definition seconds_of_day (dt : datetime) : Z :=
  second dt + minute dt * 60 + hour dt * 3600.

(** [a - b] for two datetimes. *)
Definition datetime_sub (a b : datetime) : timedelta :=
  new_timedelta (toordinal (dt_date a) - toordinal (dt_date b))
                (seconds_of_day a - seconds_of_day b)
                (microsecond a - microsecond b).

(** *** [datetime.strptime]

    A format is a sequence of directives and literal characters.  Each
    directive is the regular expression of [_strptime.TimeRE]; a match is
    looked for from the start of the data, alternatives are tried in the
    order they are written, and characters left after the match are an
    error. *)

Inductive directive : Type :=
| Dir_d              (* %d : 3[0-1]|[1-2]\d|0[1-9]|[1-9]| [1-9] *)
| Dir_m              (* %m : 1[0-2]|0[1-9]|[1-9] *)
| Dir_Y              (* %Y : \d\d\d\d *)
| Lit (c : Z).

(** The fields found so far: year, month, day. *)
Definition found : Type := (Z * Z * Z)%type.

Definition between (lo hi c : Z) : bool := (lo <=? c) && (c <=? hi).

(** Every way a directive matches a prefix of [s], first choice first:
    the value read and the rest of the data. *)
Definition re_d (s : str) : list (Z * str) :=
  (match s with
   | a :: c :: r =>
       if (a =? 51) && between 48 49 c then [(30 + (c - 48), r)] else []
   | _ => []
   end)
  ++ (match s with
      | a :: c :: r =>
          if between 49 50 a
          then match decimal_value c with
               | Some v => [(10 * (a - 48) + v, r)]
               | None => []
               end
          else []
      | _ => []
      end)
  ++ (match s with
      | a :: c :: r =>
          if (a =? 48) && between 49 57 c then [(c - 48, r)] else []
      | _ => []
      end)
  ++ (match s with
      | c :: r => if between 49 57 c then [(c - 48, r)] else []
      | _ => []
      end)
  ++ (match s with
      | a :: c :: r =>
          if (a =? 32) && between 49 57 c then [(c - 48, r)] else []
      | _ => []
      end).

Definition re_m (s : str) : list (Z * str) :=
  (match s with
   | a :: c :: r =>
       if (a =? 49) && between 48 50 c then [(10 + (c - 48), r)] else []
   | _ => []
   end)
  ++ (match s with
      | a :: c :: r =>
          if (a =? 48) && between 49 57 c then [(c - 48, r)] else []
      | _ => []
      end)
  ++ (match s with
      | c :: r => if between 49 57 c then [(c - 48, r)] else []
      | _ => []
      end).

Definition re_Y (s : str) : list (Z * str) :=
  match s with
  | a :: b :: c :: d :: r =>
      match decimal_value a, decimal_value b,
            decimal_value c, decimal_value d with
      | Some va, Some vb, Some vc, Some vd =>
          [(1000 * va + 100 * vb + 10 * vc + vd, r)]
      | _, _, _, _ => []
      end
  | _ => []
  end.

Fixpoint re_match (fmt : list directive) (f : found) (s : str)
  : list (found * str) :=
  match fmt with
  | [] => [(f, s)]
  | Dir_d :: fmt' =>
      flat_map (fun vr => let '(y, m, _) := f in
                          re_match fmt' (y, m, fst vr) (snd vr)) (re_d s)
  | Dir_m :: fmt' =>
      flat_map (fun vr => let '(y, _, d) := f in
                          re_match fmt' (y, fst vr, d) (snd vr)) (re_m s)
  | Dir_Y :: fmt' =>
      flat_map (fun vr => let '(_, m, d) := f in
                          re_match fmt' (fst vr, m, d) (snd vr)) (re_Y s)
  | Lit c :: fmt' =>
      match s with
      | c' :: r => if c' =? c then re_match fmt' f r else []
      | [] => []
      end
  end.

(** [datetime.strptime(data, fmt)], for formats of [%d], [%m], [%Y] and
    literals.  A field that the format lacks keeps its default. *)
Definition strptime (data : str) (fmt : list directive) : outcome datetime :=
  match re_match fmt (1900, 1, 1) data with
  | [] => Raised (ValueError TimeDataMismatch)
  | ((y, m, d), rest) :: _ =>
      match rest with
      | _ :: _ => Raised (ValueError UnconvertedData)
      | [] => dd <- new_date y m d ;; Returned (midnight dd)
      end
  end.

Definition dot : Z := 46.

(** ["%d.%m.%Y"] *)
Definition fmt_dmY : list directive := [Dir_d; Lit dot; Dir_m; Lit dot; Dir_Y].
(** ["%Y.%m.%d"] *)
Definition fmt_Ymd : list directive := [Dir_Y; Lit dot; Dir_m; Lit dot; Dir_d].

(** [dt.strftime('%Y.%m.%d')].  The C library prints [%Y] without padding;
    years from 1000 on have their four digits either way. *)
Definition strftime_Ymd (dt : datetime) : str :=
  str_of_int (year (dt_date dt)) ++ [dot]
  ++ pad2 (month (dt_date dt)) ++ [dot]
  ++ pad2 (day (dt_date dt)).

(* ================================================================= *)
(** ** The fields: [Name], [Phone], [Birthday]

    A field object holds one [value]; the model keeps the value itself. *)

(** [Phone._validate] *)
Definition _validate (phone_number : str) : bool :=
  isdigit phone_number && (len phone_number =? 10).

(** [Phone(value)] *)
Definition Phone (value : str) : outcome str :=
  if negb (_validate value)
  then Raised (ValueError PhoneDigits)
  else Returned value.

(** [Birthday(value)]: any [ValueError] of the parser is raised again
    with the message of the class. *)
Definition Birthday (value : str) : outcome date :=
  match strptime value fmt_dmY with
  | Returned dt => Returned (dt_date dt)
  | Raised (ValueError _) => Raised (ValueError InvalidDateFormat)
  | Raised e => Raised e
  end.

(* ================================================================= *)
(** ** The contact record: class [Record] *)

Record ContactRecord : Type := mkRecord {
  name : str;
  phones : list str;
  birthday : option date
}.

(** What a call can give back to its caller. *)
Inductive value : Type :=
| VNone
| VStr (s : str)
| VRecord (r : ContactRecord)
| VBirthday (b : date).

(** A method: from the state of the object to the result of the call and
    the state after it.  The state is kept when the call raises. *)
Definition method (S : Type) : Type := S -> outcome value * S.

(** [Record(name)] *)
Definition new_record (n : str) : ContactRecord := mkRecord n [] None.

Definition add_phone (phone : str) : method ContactRecord :=
  fun self =>
    match Phone phone with
    | Returned p => (Returned VNone, mkRecord (name self) (phones self ++ [p]) (birthday self))
    | Raised e => (Raised e, self)
    end.

(** The loop of [edit_phone]: the first phone equal to [old_phone] gets
    the new value and the loop ends. *)
Fixpoint edit_first (ps : list str) (old_phone new_phone : str) : list str :=
  match ps with
  | [] => []
  | p :: ps' => if str_eqb p old_phone then new_phone :: ps'
                else p :: edit_first ps' old_phone new_phone
  end.

Definition edit_phone (old_phone new_phone : str) : method ContactRecord :=
  fun self =>
    (Returned VNone,
     mkRecord (name self) (edit_first (phones self) old_phone new_phone)
              (birthday self)).

Fixpoint find_first (ps : list str) (phone : str) : value :=
  match ps with
  | [] => VNone
  | p :: ps' => if str_eqb p phone then VStr p else find_first ps' phone
  end.

Definition find_phone (phone : str) : method ContactRecord :=
  fun self => (Returned (find_first (phones self) phone), self).

(** The loop of [remove_phone]: the first phone equal to [phone] is taken
    out of the list and the loop ends.  [self.phones.remove(p)] compares
    by identity, the class having no [__eq__], and [p] is the first object
    of the list with that value, so it is [p] that goes. *)
Fixpoint remove_first (ps : list str) (phone : str) : list str :=
  match ps with
  | [] => []
  | p :: ps' => if str_eqb p phone then ps'
                else p :: remove_first ps' phone
  end.

Definition remove_phone (phone : str) : method ContactRecord :=
  fun self =>
    (Returned VNone,
     mkRecord (name self) (remove_first (phones self) phone) (birthday self)).

(** [Record.add_birthday] *)
Definition record_add_birthday (b : str) : method ContactRecord :=
  fun self =>
    match Birthday b with
    | Returned d => (Returned VNone, mkRecord (name self) (phones self) (Some d))
    | Raised e => (Raised e, self)
    end.

(* ================================================================= *)
(** ** The directory: class [AddressBook]

    [self.data] is a [dict] from names to records.  It is kept as the list
    of its items in the order of insertion, no key twice.  No record is
    stored under two keys ([add_record] makes a new one each time), so a
    method that changes a record in place is a write under its key. *)

Definition AddressBook : Type := list (str * ContactRecord).

(** [data.get(key)] *)
Fixpoint dict_get (data : AddressBook) (key : str) : option ContactRecord :=
  match data with
  | [] => None
  | (k, v) :: rest => if str_eqb k key then Some v else dict_get rest key
  end.

(** [data[key] = v]: the value of a key that is present is replaced where
    it stands, a new key goes to the end. *)
Fixpoint dict_set (data : AddressBook) (key : str) (v : ContactRecord)
  : AddressBook :=
  match data with
  | [] => [(key, v)]
  | (k, w) :: rest => if str_eqb k key then (k, v) :: rest
                      else (k, w) :: dict_set rest key v
  end.

(** [del data[key]] *)
Fixpoint dict_del (data : AddressBook) (key : str) : option AddressBook :=
  match data with
  | [] => None
  | (k, w) :: rest =>
      if str_eqb k key then Some rest
      else match dict_del rest key with
           | Some rest' => Some ((k, w) :: rest')
           | None => None
           end
  end.

(** [data.values()] *)
Definition dict_values (data : AddressBook) : list ContactRecord :=
  map snd data.

Definition give_me_correct_values : str :=
  lit "Give me correct values." ++ [10]
  ++ lit "Type 'help' to see available commands.".

Definition invalid_number_of_arguments : str :=
  lit "Invalid number of arguments." ++ [10]
  ++ lit "Type 'help' to see available commands.".

(** The decorator [input_error]: a [ValueError] and an [IndexError] become
    a text for the user, any other exception goes on to the caller. *)
Definition input_error {S : Type} (func : method S) : method S :=
  fun self =>
    match func self with
    | (Raised (ValueError _), self') => (Returned (VStr give_me_correct_values), self')
    | (Raised IndexError, self') => (Returned (VStr invalid_number_of_arguments), self')
    | r => r
    end.

(** [args[i]] *)
Definition getitem (args : list str) (i : nat) : outcome str :=
  match nth_error args i with
  | Some a => Returned a
  | None => Raised IndexError
  end.

Definition add_record_body (args : list str) : method AddressBook :=
  fun self =>
    match getitem args 0 with
    | Raised e => (Raised e, self)
    | Returned a0 =>
        let record := new_record a0 in
        match getitem args 1 with
        | Raised e => (Raised e, self)
        | Returned a1 =>
            match add_phone a1 record with
            | (Raised e, _) => (Raised e, self)
            | (Returned _, record') =>
                (Returned (VStr (lit "Contact " ++ name record' ++ lit " was added.")),
                 dict_set self (name record') record')
            end
        end
    end.

Definition add_record (args : list str) : method AddressBook :=
  input_error (add_record_body args).

Definition contact_not_found : str := lit "Contact not found".

(** [find]: the record, or the text that says there is none. *)
Definition find (self : AddressBook) (n : str) : value :=
  match dict_get self n with
  | Some r => VRecord r
  | None => VStr contact_not_found
  end.

Definition delete (n : str) : method AddressBook :=
  fun self =>
    match dict_del self n with
    | Some data' => (Returned VNone, data')
    | None => (Raised KeyError, self)
    end.

(** One item of the result of [get_upcoming_birthdays]: a [dict] with the
    keys ['name'] and ['congratulation_date']. *)
Record entry : Type := mkentry {
  entry_name : str;
  congratulation_date : str
}.

(** The text [f'{today.year}.{b.month}.{b.day}'] *)
Definition this_year_text (today : datetime) (b : date) : str :=
  str_of_int (year (dt_date today)) ++ [dot]
  ++ str_of_int (month b) ++ [dot] ++ str_of_int (day b).

(** [birthday_this_year]: the stored month and day in the year of [today]. *)
Definition birthday_this_year (today : datetime) (b : date) : outcome datetime :=
  strptime (this_year_text today b) fmt_Ymd.

(** [(birthday_this_year - today).days] *)
Definition difference (occurrence today : datetime) : Z :=
  days (datetime_sub occurrence today).

(** The shift of a birthday that falls on a weekend:
    [if w >= 5: birthday_this_year += timedelta(days=(7 - w))]
    with [w = birthday_this_year.weekday()]. *)
Definition shift_weekend (occurrence : datetime) : outcome datetime :=
  if 5 <=? weekday (dt_date occurrence)
  then datetime_add_days occurrence (7 - weekday (dt_date occurrence))
  else Returned occurrence.

(** The body of the loop of [get_upcoming_birthdays] for one record. *)
Definition upcoming_step (today : datetime) (user : ContactRecord)
           (upcoming_birthdays : list entry) : outcome (list entry) :=
  match birthday user with
  | None => Raised AttributeError
  | Some b =>
      occurrence <- birthday_this_year today b ;;
      if (0 <=? difference occurrence today) && (difference occurrence today <=? 7)
      then
        congratulation <- shift_weekend occurrence ;;
        Returned (upcoming_birthdays
                  ++ [mkentry (name user) (strftime_Ymd congratulation)])
      else Returned upcoming_birthdays
  end.

Fixpoint upcoming_loop (today : datetime) (users : list ContactRecord)
         (upcoming_birthdays : list entry) : outcome (list entry) :=
  match users with
  | [] => Returned upcoming_birthdays
  | user :: rest =>
      acc <- upcoming_step today user upcoming_birthdays ;;
      upcoming_loop today rest acc
  end.

(** [get_upcoming_birthdays], with [today = datetime.now()] as an input. *)
Definition get_upcoming_birthdays (self : AddressBook) (today : datetime)
  : outcome (list entry) :=
  upcoming_loop today (dict_values self) [].

Definition change_record_body (args : list str) : method AddressBook :=
  fun self =>
    match args with
    | [n; old_phone; new_phone] =>
        match find self n with
        | VRecord record =>
            let record' := snd (edit_phone old_phone new_phone record) in
            (Returned (VStr (lit "Phone number " ++ old_phone
                             ++ lit " was changed to " ++ new_phone
                             ++ lit " for contact " ++ n ++ lit ".")),
             dict_set self n record')
        | other => (Returned other, self)
        end
    | _ => (Raised (ValueError UnpackMismatch), self)
    end.

Definition change_record (args : list str) : method AddressBook :=
  input_error (change_record_body args).

Definition add_birthday_body (args : list str) : method AddressBook :=
  fun self =>
    match args with
    | [n; b] =>
        match find self n with
        | VRecord record =>
            match record_add_birthday b record with
            | (Raised e, _) => (Raised e, self)
            | (Returned _, record') =>
                (Returned (VStr (lit "Birthday " ++ b
                                 ++ lit " was added to contact " ++ n ++ lit ".")),
                 dict_set self n record')
            end
        | other => (Returned other, self)
        end
    | _ => (Raised (ValueError UnpackMismatch), self)
    end.

Definition add_birthday (args : list str) : method AddressBook :=
  input_error (add_birthday_body args).

(** [record.birthday] for what [find] gave: a [str] has no such attribute. *)
Definition getattr_birthday (record : value) : outcome value :=
  match record with
  | VRecord r => match birthday r with
                 | Some b => Returned (VBirthday b)
                 | None => Returned VNone
                 end
  | _ => Raised AttributeError
  end.

Definition show_birthday_body (args : list str) : method AddressBook :=
  fun self =>
    match getitem args 0 with
    | Raised e => (Raised e, self)
    | Returned n => (getattr_birthday (find self n), self)
    end.

Definition show_birthday (args : list str) : method AddressBook :=
  input_error (show_birthday_body args).

Definition no_upcoming_birthdays : str := lit "No upcoming birthdays.".

(** One line of the answer of [birthdays]. *)
Definition birthday_line (data : entry) : str :=
  entry_name data ++ lit " - " ++ congratulation_date data.

Definition birthdays_body (today : datetime) : method AddressBook :=
  fun self =>
    match get_upcoming_birthdays self today with
    | Raised e => (Raised e, self)
    | Returned [] => (Returned (VStr no_upcoming_birthdays), self)
    | Returned upcoming => (Returned (VStr (join [10] (map birthday_line upcoming))), self)
    end.

Definition birthdays (today : datetime) : method AddressBook :=
  input_error (birthdays_body today).

(* ================================================================= *)
(** ** What the specification says, where it differs from the code *)

(** An ASCII decimal digit, ['0'] to ['9']. *)
Definition ascii_digit (c : Z) : Prop := 48 <= c <= 57.

(** Exactly ten ASCII decimal digits. *)
Definition ten_ascii_digits (raw : str) : Prop :=
  List.length raw = 10%nat /\ Forall ascii_digit raw.

(** [DD.MM.YYYY] read strictly: two ASCII digits, a dot, two ASCII digits,
    a dot, four ASCII digits and nothing else. *)
Definition strict_dmY (raw : str) : Prop :=
  exists d1 d2 m1 m2 y1 y2 y3 y4,
    raw = [d1; d2; dot; m1; m2; dot; y1; y2; y3; y4]
    /\ Forall ascii_digit [d1; d2; m1; m2; y1; y2; y3; y4].

(** The number of days from the calendar day of [today] to the day [d]. *)
Definition calendar_days (d : date) (today : datetime) : Z :=
  toordinal d - toordinal (dt_date today).

(* ================================================================= *)
(** ** The vocabulary of the properties *)

Definition unicode_digit (c : Z) : Prop := char_isdigit c = true.

(** Ten Arabic-Indic digits, U+0660 to U+0669. *)
Definition arabic_indic_phone : str :=
  [1632; 1633; 1634; 1635; 1636; 1637; 1638; 1639; 1640; 1641].

(** The text [change_record] returns for a record that was found. *)
Definition changed_message (n old_phone new_phone : str) : str :=
  lit "Phone number " ++ old_phone ++ lit " was changed to " ++ new_phone
  ++ lit " for contact " ++ n ++ lit ".".

(** The four digits of a year from 0 to 9999, zeros in front. *)
Definition four_digits (y : Z) : str :=
  [48 + y / 1000; 48 + (y / 100) mod 10; 48 + (y / 10) mod 10; 48 + y mod 10].

(** The fields of the time of day of a [datetime] are in their ranges. *)
Definition valid_time (dt : datetime) : Prop :=
  0 <= hour dt < 24 /\ 0 <= minute dt < 60 /\ 0 <= second dt < 60
  /\ 0 <= microsecond dt < 1000000.

(** The clock shows midnight to the microsecond. *)
Definition at_midnight (dt : datetime) : bool :=
  (seconds_of_day dt =? 0) && (microsecond dt =? 0).

(** Four ASCII digits, a dot, two ASCII digits, a dot, two ASCII digits. *)
Definition shape_Ymd (s : str) : Prop :=
  exists y1 y2 y3 y4 m1 m2 d1 d2,
    s = [y1; y2; y3; y4; dot; m1; m2; dot; d1; d2]
    /\ Forall ascii_digit [y1; y2; y3; y4; m1; m2; d1; d2].

(** The record [user] puts the item [e] in the result: it has a birthday,
    the occurrence of this year can be built and is from 0 to 7 whole days
    after the clock, and [e] carries the name and the printed, possibly
    shifted, date. *)
Definition emits (today : datetime) (user : ContactRecord) (e : entry) : Prop :=
  exists b occurrence congratulation,
    birthday user = Some b
    /\ birthday_this_year today b = Returned occurrence
    /\ 0 <= difference occurrence today <= 7
    /\ shift_weekend occurrence = Returned congratulation
    /\ e = mkentry (name user) (strftime_Ymd congratulation).

(** Every stored birthday is a date of the calendar, as [Birthday] makes
    them. *)
Definition birthdays_valid (users : list ContactRecord) : Prop :=
  forall user b, In user users -> birthday user = Some b ->
                 valid_date b = true.

(** The texts of a day: [30] and [31]; [10] to [29], whose second digit
    may be a decimal digit of any script; [01] to [09]; [1] to [9]; a
    space and [1] to [9]. *)
Inductive day_text : str -> Z -> Prop :=
| day_thirties c :
    48 <= c <= 49 -> day_text [51; c] (30 + (c - 48))
| day_tens a c w :
    49 <= a <= 50 -> decimal_value c = Some w ->
    day_text [a; c] (10 * (a - 48) + w)
| day_zero_padded c :
    49 <= c <= 57 -> day_text [48; c] (c - 48)
| day_one_digit c :
    49 <= c <= 57 -> day_text [c] (c - 48)
| day_space_padded c :
    49 <= c <= 57 -> day_text [32; c] (c - 48).

(** The texts of a month: [10] to [12]; [01] to [09]; [1] to [9]. *)
Inductive month_text : str -> Z -> Prop :=
| month_tens c :
    48 <= c <= 50 -> month_text [49; c] (10 + (c - 48))
| month_zero_padded c :
    49 <= c <= 57 -> month_text [48; c] (c - 48)
| month_one_digit c :
    49 <= c <= 57 -> month_text [c] (c - 48).

(** The texts of a year: four decimal digits of any script. *)
Inductive year_text : str -> Z -> Prop :=
| year_digits a b c d va vb vc vd :
    decimal_value a = Some va -> decimal_value b = Some vb ->
    decimal_value c = Some vc -> decimal_value d = Some vd ->
    year_text [a; b; c; d] (1000 * va + 100 * vb + 10 * vc + vd).

(** The text [DD.MM.YYYY] of a date, every field padded with zeros. *)
Definition format_dmY (dt : date) : str :=
  pad2 (day dt) ++ dot :: pad2 (month dt) ++ dot :: four_digits (year dt).

(* ================================================================= *)
(** ** The listing of the directory *)

(** [str(d)] for a date of the calendar: [date.isoformat()], the year on
    four places and the month and the day on two, with dashes. *)
Definition isoformat (d : date) : str :=
  four_digits (year d) ++ [45] ++ pad2 (month d) ++ [45] ++ pad2 (day d).

(** [Record.__str__].  A [Birthday] object is true whatever it holds, so
    the birthday is printed whenever there is one. *)
Definition record_str (self : ContactRecord) : str :=
  let birthday_data :=
    match birthday self with
    | Some b => lit ", birthday: " ++ isoformat b
    | None => []
    end in
  lit "Contact name: " ++ name self ++ lit ", phones: "
  ++ join (lit "; ") (phones self) ++ birthday_data.

(** [AddressBook.all] *)
Definition all_text (self : AddressBook) : str :=
  join [10] (map record_str (dict_values self)).

(* ================================================================= *)
(** ** Invariants of records and directories *)

(** Every phone of the record passes [Phone._validate]. *)
Definition phones_valid (r : ContactRecord) : Prop :=
  Forall (fun p => _validate p = true) (phones r).

(** No name twice, every record under its own name, every birthday a date
    of the calendar. *)
Definition book_wf (book : AddressBook) : Prop :=
  NoDup (map fst book)
  /\ Forall (fun kv => name (snd kv) = fst kv) book
  /\ birthdays_valid (dict_values book).

(** What one record adds to the result of the scan when it is scanned
    alone. *)
Definition contribution (today : datetime) (user : ContactRecord)
  : list entry :=
  match upcoming_step today user [] with
  | Returned l => l
  | Raised _ => []
  end.

(* ================================================================= *)
(** ** One turn of the loop of [main]

    The command and its arguments are what [parse_input] gave.  [print]
    writes the [str] of its argument.  [main] catches [ValueError] alone
    and prints it; any other exception ends the program before
    [contacts.save()] is reached. *)

(** [str(v)] for what the methods return. *)
Definition str_of_value (v : value) : str :=
  match v with
  | VNone => lit "None"
  | VStr s => s
  | VRecord r => record_str r
  | VBirthday b => isoformat b
  end.

(** An exception that leaves [main].  A call with the wrong number of
    positional arguments raises [TypeError]. *)
Inductive uncaught : Type :=
| Exn (e : exn)
| TypeError.

Inductive turn : Type :=
| Printed (text : str) (book : AddressBook)
| PrintedError (msg : value_error) (book : AddressBook)
| GoodBye (text : str) (book : AddressBook)
| Crashed (e : uncaught) (book : AddressBook).

(** [print(call)] inside the [try] of [main]. *)
Definition print_result (r : outcome value * AddressBook) : turn :=
  match r with
  | (Returned v, book) => Printed (str_of_value v) book
  | (Raised (ValueError m), book) => PrintedError m book
  | (Raised e, book) => Crashed (Exn e) book
  end.

(** The text the command [help] prints. *)
Definition help_text : str :=
  lit "" ++ [10]
  ++ lit "                    Available commands:" ++ [10]
  ++ lit "                        hello - Greet the bot." ++ [10]
  ++ lit "                        add <username> <phone> - Add a new contact." ++ [10]
  ++ lit "                        change <username> <phone> - Change an existing contact." ++ [10]
  ++ lit "                        phone <username> - Get phone number of a contact." ++ [10]
  ++ lit "                        all - List all contacts." ++ [10]
  ++ lit "                        add-birthday <username> <birthday> - Add birthday to a contact." ++ [10]
  ++ lit "                        show-birthday <username> - Show birthday of a contact." ++ [10]
  ++ lit "                        birthdays - Show upcoming birthdays." ++ [10]
  ++ lit "                    ".

(** The [match command] of [main].  [contacts.change_record( *args)]
    passes the arguments one by one to a method that takes one: with one
    argument the method gets that [str] and unpacks its characters, with
    any other number the call raises [TypeError]. *)
Definition dispatch (command : str) (args : list str) (today : datetime)
           (book : AddressBook) : turn :=
  if str_eqb command (lit "close") || str_eqb command (lit "exit")
  then GoodBye (lit "Good bye!") book
  else if str_eqb command (lit "hello")
  then Printed (lit "How can I help you?") book
  else if str_eqb command (lit "add")
  then print_result (add_record args book)
  else if str_eqb command (lit "change")
  then match args with
       | [a] => print_result (change_record (map (fun c => [c]) a) book)
       | _ => Crashed TypeError book
       end
  else if str_eqb command (lit "phone")
  then match getitem args 0 with
       | Returned n => Printed (str_of_value (find book n)) book
       | Raised (ValueError m) => PrintedError m book
       | Raised e => Crashed (Exn e) book
       end
  else if str_eqb command (lit "all")
  then Printed (all_text book) book
  else if str_eqb command (lit "add-birthday")
  then print_result (add_birthday args book)
  else if str_eqb command (lit "show-birthday")
  then print_result (show_birthday args book)
  else if str_eqb command (lit "birthdays")
  then print_result (birthdays today book)
  else if str_eqb command (lit "help")
  then Printed help_text book
  else Printed (lit "Invalid command.") book.

(* ================================================================= *)
(** * Properties *)

(** ** Strings and dictionaries *)

Lemma str_eqb_eq (s t : str) : str_eqb s t = true <-> s = t.
Proof.
  revert t; induction s as [|c s IH]; intros [|d t]; simpl;
    try (split; [discriminate | discriminate]); try tauto.
  rewrite andb_true_iff, Z.eqb_eq, IH.
  split; [intros [-> ->]; reflexivity | intros [= -> ->]; auto].
Qed.

Lemma str_eqb_refl (s : str) : str_eqb s s = true.
Proof. apply str_eqb_eq; reflexivity. Qed.

Lemma str_eqb_neq (s t : str) : str_eqb s t = false <-> s <> t.
Proof.
  rewrite <- str_eqb_eq. destruct (str_eqb s t); split; congruence.
Qed.

Lemma dict_get_set_same (data : AddressBook) (k : str) (v : ContactRecord) :
  dict_get (dict_set data k v) k = Some v.
Proof.
  induction data as [|[k' w] rest IH]; simpl.
  - now rewrite str_eqb_refl.
  - destruct (str_eqb k' k) eqn:E; simpl; rewrite E; auto.
Qed.

Lemma dict_get_set_other (data : AddressBook) (k k' : str) (v : ContactRecord) :
  k' <> k -> dict_get (dict_set data k v) k' = dict_get data k'.
Proof.
  intros Hne. induction data as [|[k0 w] rest IH]; simpl.
  - assert (str_eqb k k' = false) as -> by (apply str_eqb_neq; congruence).
    reflexivity.
  - destruct (str_eqb k0 k) eqn:E; simpl.
    + apply str_eqb_eq in E; subst k0.
      assert (str_eqb k k' = false) as -> by (apply str_eqb_neq; congruence).
      reflexivity.
    + destruct (str_eqb k0 k'); auto.
Qed.

(** Writing back the value a key already has changes nothing: this is
    what a method that leaves the record alone does to the directory. *)
Lemma dict_set_same_value (data : AddressBook) (k : str) (v : ContactRecord) :
  dict_get data k = Some v -> dict_set data k v = data.
Proof.
  induction data as [|[k0 w] rest IH]; simpl; [discriminate|].
  destruct (str_eqb k0 k) eqn:E.
  - intros [= ->]; reflexivity.
  - intros H; rewrite IH; auto.
Qed.

(** The keys are kept, in their order, when a key that is present gets a
    new value; a new key is added at the end. *)
Lemma dict_set_keys (data : AddressBook) (k : str) (v : ContactRecord) :
  map fst (dict_set data k v)
  = match dict_get data k with
    | Some _ => map fst data
    | None => map fst data ++ [k]
    end.
Proof.
  induction data as [|[k0 w] rest IH]; simpl; auto.
  destruct (str_eqb k0 k) eqn:E; simpl; auto.
  rewrite IH. destruct (dict_get rest k); reflexivity.
Qed.

(** ** The phones of a record *)

Lemma edit_first_absent (ps : list str) (old new : str) :
  ~ In old ps -> edit_first ps old new = ps.
Proof.
  induction ps as [|p ps IH]; simpl; auto.
  intros H. destruct (str_eqb p old) eqn:E.
  - apply str_eqb_eq in E. tauto.
  - rewrite IH; tauto.
Qed.

Lemma edit_first_present (l1 l2 : list str) (old new : str) :
  ~ In old l1 -> edit_first (l1 ++ old :: l2) old new = l1 ++ new :: l2.
Proof.
  induction l1 as [|p l1 IH]; simpl.
  - now rewrite str_eqb_refl.
  - intros H. destruct (str_eqb p old) eqn:E.
    + apply str_eqb_eq in E. tauto.
    + rewrite IH; tauto.
Qed.

Lemma remove_first_absent (ps : list str) (v : str) :
  ~ In v ps -> remove_first ps v = ps.
Proof.
  induction ps as [|p ps IH]; simpl; auto.
  intros H. destruct (str_eqb p v) eqn:E.
  - apply str_eqb_eq in E. tauto.
  - rewrite IH; tauto.
Qed.

Lemma remove_first_present (l1 l2 : list str) (v : str) :
  ~ In v l1 -> remove_first (l1 ++ v :: l2) v = l1 ++ l2.
Proof.
  induction l1 as [|p l1 IH]; simpl.
  - now rewrite str_eqb_refl.
  - intros H. destruct (str_eqb p v) eqn:E.
    + apply str_eqb_eq in E. tauto.
    + rewrite IH; tauto.
Qed.

(** A phone that is in the list has a first place in it. *)
Lemma first_occurrence (ps : list str) (v : str) :
  In v ps -> exists l1 l2, ps = l1 ++ v :: l2 /\ ~ In v l1.
Proof.
  induction ps as [|p ps IH]; simpl; [tauto|].
  intros H. destruct (str_eqb p v) eqn:E.
  - apply str_eqb_eq in E; subst p. exists [], ps; simpl; tauto.
  - apply str_eqb_neq in E. destruct H as [H|H]; [congruence|].
    destruct (IH H) as (l1 & l2 & -> & Hn).
    exists (p :: l1), l2; simpl; split; [reflexivity|].
    intros [?|?]; [congruence | tauto].
Qed.

Lemma record_eta (r : ContactRecord) :
  mkRecord (name r) (phones r) (birthday r) = r.
Proof. destruct r; reflexivity. Qed.

(** ** Phone validation *)

Lemma decimal_value_ascii (k : Z) :
  0 <= k <= 9 -> decimal_value (48 + k) = Some k.
Proof.
  intros Hk. unfold decimal_value, decimal_zeros. cbn [decimal_in].
  destruct ((48 <=? 48 + k) && (48 + k <=? 48 + 9)) eqn:E.
  - f_equal; lia.
  - apply andb_false_iff in E. destruct E as [E|E]; apply Z.leb_gt in E; lia.
Qed.

Lemma ascii_digit_is_unicode_digit (c : Z) : ascii_digit c -> unicode_digit c.
Proof.
  intros Hc. unfold unicode_digit, char_isdigit, char_isdecimal.
  replace c with (48 + (c - 48)) by lia.
  rewrite decimal_value_ascii by (unfold ascii_digit in Hc; lia).
  reflexivity.
Qed.

Lemma _validate_iff (raw : str) :
  _validate raw = true
  <-> List.length raw = 10%nat /\ Forall unicode_digit raw.
Proof.
  unfold _validate, len. rewrite andb_true_iff, Z.eqb_eq.
  split.
  - intros [Hd Hl]. split; [lia|].
    destruct raw; [discriminate|].
    apply Forall_forall. intros c Hc.
    unfold isdigit in Hd. rewrite forallb_forall in Hd. apply Hd, Hc.
  - intros [Hl Hd]. split; [|lia].
    destruct raw; [discriminate|].
    unfold isdigit. apply forallb_forall. intros c Hc.
    rewrite Forall_forall in Hd. apply Hd, Hc.
Qed.

(** C6, as stated, fails: a phone of ten digits that are not ASCII is
    accepted, because [str.isdigit] knows the digits of every script. *)
Lemma Phone_accepts_non_ascii_digits :
  Phone arabic_indic_phone = Returned arabic_indic_phone
  /\ ~ ten_ascii_digits arabic_indic_phone.
Proof.
  split; [reflexivity|].
  intros [_ H]. inversion H as [|c l Hc _]; subst.
  unfold ascii_digit in Hc. lia.
Qed.

(** C6, amended: [Phone(raw)] succeeds if and only if [raw] has exactly
    ten characters and each of them is a digit for [str.isdigit]; the
    value kept is [raw] itself; any other text raises the [ValueError] of
    the class; and the ten ASCII digits are among the accepted
    characters. *)
Theorem Phone_succeeds_iff_ten_unicode_digits (raw : str) :
  (Phone raw = Returned raw
   <-> List.length raw = 10%nat /\ Forall unicode_digit raw)
  /\ (Phone raw <> Returned raw
      <-> Phone raw = Raised (ValueError PhoneDigits))
  /\ (forall c, ascii_digit c -> unicode_digit c).
Proof.
  split; [|split].
  - rewrite <- _validate_iff. unfold Phone.
    destruct (_validate raw); simpl; split; congruence.
  - unfold Phone. destruct (_validate raw); simpl; split; congruence.
  - exact ascii_digit_is_unicode_digit.
Qed.

(** ** The methods of the record *)

(** C10: [remove_phone] returns [None] and raises nothing; it keeps the
    name and the birthday; it takes out the first phone equal to [v] and
    keeps every other phone, later copies of [v] among them, in place;
    when no phone equals [v] the record is unchanged. *)
Theorem remove_phone_removes_first_only (r : ContactRecord) (v : str) :
  fst (remove_phone v r) = Returned VNone
  /\ name (snd (remove_phone v r)) = name r
  /\ birthday (snd (remove_phone v r)) = birthday r
  /\ (~ In v (phones r) -> snd (remove_phone v r) = r)
  /\ (forall l1 l2, phones r = l1 ++ v :: l2 -> ~ In v l1 ->
        phones (snd (remove_phone v r)) = l1 ++ l2)
  /\ (In v (phones r) -> exists l1 l2,
        phones r = l1 ++ v :: l2 /\ ~ In v l1).
Proof.
  unfold remove_phone; simpl. repeat split.
  - intros H. rewrite remove_first_absent by exact H. apply record_eta.
  - intros l1 l2 -> H. apply remove_first_present, H.
  - apply first_occurrence.
Qed.

(** C5, as stated, fails: an edit that finds no phone gives back the very
    value, [None], that an edit that finds one gives back, so nothing
    signals the miss. *)
Lemma edit_phone_miss_is_not_signalled :
  let r := mkRecord (lit "Ann") [lit "1111111111"] None in
  ~ In (lit "2222222222") (phones r)
  /\ In (lit "1111111111") (phones r)
  /\ edit_phone (lit "2222222222") (lit "3333333333") r = (Returned VNone, r)
  /\ fst (edit_phone (lit "1111111111") (lit "3333333333") r)
     = fst (edit_phone (lit "2222222222") (lit "3333333333") r).
Proof.
  simpl. repeat split; auto.
  intros [H|[]]. discriminate H.
Qed.

(** C5, amended: for a new value that is a valid phone, [edit_phone]
    puts it in the place of the first phone equal to the old value and
    keeps the name, the birthday and every other phone; when no phone
    equals the old value the record is unchanged; in both cases the call
    returns [None] and raises nothing. *)
Theorem edit_phone_replaces_first (r : ContactRecord) (old new : str)
        (Hnew : _validate new = true) :
  fst (edit_phone old new r) = Returned VNone
  /\ name (snd (edit_phone old new r)) = name r
  /\ birthday (snd (edit_phone old new r)) = birthday r
  /\ (~ In old (phones r) -> snd (edit_phone old new r) = r)
  /\ (forall l1 l2, phones r = l1 ++ old :: l2 -> ~ In old l1 ->
        phones (snd (edit_phone old new r)) = l1 ++ new :: l2).
Proof.
  unfold edit_phone; simpl. repeat split.
  - intros H. rewrite edit_first_absent by exact H. apply record_eta.
  - intros l1 l2 -> H. apply edit_first_present, H.
Qed.

Lemma edit_phone_replaces_first_witness :
  let r := mkRecord (lit "Ann") [lit "1111111111"; lit "2222222222"] None in
  _validate (lit "3333333333") = true
  /\ phones (snd (edit_phone (lit "2222222222") (lit "3333333333") r))
     = [lit "1111111111"; lit "3333333333"].
Proof.
  simpl. split; [reflexivity|].
  destruct (edit_phone_replaces_first
              (mkRecord (lit "Ann") [lit "1111111111"; lit "2222222222"] None)
              (lit "2222222222") (lit "3333333333") eq_refl)
    as (_ & _ & _ & _ & H).
  apply (H [lit "1111111111"] []); [reflexivity|].
  simpl. intros [E|[]]. discriminate E.
Defined.

(** ** The directory *)

Lemma Phone_valid (p : str) : _validate p = true -> Phone p = Returned p.
Proof. unfold Phone. intros ->. reflexivity. Qed.

(** C8: for a phone that passes the validation, [add_record] returns the
    confirmation and stores a fresh record (that phone, no birthday) under
    the name; a later [find] of the name gives this record whatever the
    directory held under the name before, and every other name is found as
    before. *)
Theorem add_record_inserts_and_overwrites
        (book : AddressBook) (n phone : str)
        (Hphone : _validate phone = true) :
  let fresh := mkRecord n [phone] None in
  add_record [n; phone] book
  = (Returned (VStr (lit "Contact " ++ n ++ lit " was added.")),
     dict_set book n fresh)
  /\ find (dict_set book n fresh) n = VRecord fresh
  /\ (forall n', n' <> n -> find (dict_set book n fresh) n' = find book n').
Proof.
  intros fresh. split; [|split].
  - unfold add_record, input_error, add_record_body, add_phone. simpl.
    rewrite (Phone_valid _ Hphone). reflexivity.
  - unfold find. rewrite dict_get_set_same. reflexivity.
  - intros n' Hne. unfold find. rewrite dict_get_set_other by exact Hne.
    reflexivity.
Qed.

Lemma add_record_inserts_and_overwrites_witness :
  let old := mkRecord (lit "Bob") [lit "0000000000"; lit "1111111111"]
                      (Some (mkdate 1990 6 12)) in
  _validate (lit "1234567890") = true
  /\ add_record [lit "Bob"; lit "1234567890"] [(lit "Bob", old)]
     = (Returned (VStr (lit "Contact Bob was added.")),
        [(lit "Bob", mkRecord (lit "Bob") [lit "1234567890"] None)]).
Proof.
  simpl. split; [reflexivity|].
  exact (proj1 (add_record_inserts_and_overwrites
                  [(lit "Bob", mkRecord (lit "Bob")
                                 [lit "0000000000"; lit "1111111111"]
                                 (Some (mkdate 1990 6 12)))]
                  (lit "Bob") (lit "1234567890") eq_refl)).
Defined.

Lemma change_record_found (book : AddressBook) (n old new : str)
      (r : ContactRecord) :
  dict_get book n = Some r ->
  change_record [n; old; new] book
  = (Returned (VStr (changed_message n old new)),
     dict_set book n (snd (edit_phone old new r))).
Proof.
  intros H. unfold change_record, input_error, change_record_body, find.
  rewrite H. reflexivity.
Qed.

(** C9: when the contact exists and none of its phones equals the old
    one, [change_record] leaves the directory as it was and still returns
    the text that says the phone was changed, the same text it returns
    for any contact of that name whose phone it did change. *)
Theorem change_record_reports_success_on_miss
        (book : AddressBook) (n old new : str) (r : ContactRecord)
        (Hfound : dict_get book n = Some r)
        (Hmiss : ~ In old (phones r)) :
  change_record [n; old; new] book
  = (Returned (VStr (changed_message n old new)), book)
  /\ (forall book' r', dict_get book' n = Some r' -> In old (phones r') ->
        fst (change_record [n; old; new] book')
        = fst (change_record [n; old; new] book)).
Proof.
  split.
  - rewrite (change_record_found _ _ _ _ _ Hfound). f_equal.
    unfold edit_phone; simpl.
    rewrite edit_first_absent by exact Hmiss. rewrite record_eta.
    apply dict_set_same_value, Hfound.
  - intros book' r' H' _.
    rewrite (change_record_found _ _ _ _ _ Hfound),
            (change_record_found _ _ _ _ _ H'). reflexivity.
Qed.

Lemma change_record_reports_success_on_miss_witness :
  let r := mkRecord (lit "Bob") [lit "1234567890"] None in
  dict_get [(lit "Bob", r)] (lit "Bob") = Some r
  /\ ~ In (lit "5555555555") (phones r)
  /\ change_record [lit "Bob"; lit "5555555555"; lit "0987654321"]
                   [(lit "Bob", r)]
     = (Returned (VStr (lit
          "Phone number 5555555555 was changed to 0987654321 for contact Bob.")),
        [(lit "Bob", r)]).
Proof.
  simpl.
  assert (Hmiss : ~ In (lit "5555555555") [lit "1234567890"]).
  { simpl. intros [E|[]]. discriminate E. }
  split; [reflexivity|]. split; [exact Hmiss|].
  exact (proj1 (change_record_reports_success_on_miss
                  [(lit "Bob", mkRecord (lit "Bob") [lit "1234567890"] None)]
                  (lit "Bob") (lit "5555555555") (lit "0987654321")
                  (mkRecord (lit "Bob") [lit "1234567890"] None)
                  eq_refl Hmiss)).
Defined.

(** C4, on the code: [show_birthday] gives the stored birthday when the
    contact has one and [None] when it has none, but for a name that is
    not in the directory it raises [AttributeError], which [input_error]
    does not catch, instead of returning the text of [find]; the
    directory is never changed.  An empty directory and any name show the
    failure. *)
Theorem show_birthday_raises_when_absent (book : AddressBook) (n : str) :
  show_birthday [n] book
  = (match dict_get book n with
     | Some r => match birthday r with
                 | Some b => Returned (VBirthday b)
                 | None => Returned VNone
                 end
     | None => Raised AttributeError
     end, book)
  /\ show_birthday [n] [] = (Raised AttributeError, [])
  /\ find [] n = VStr contact_not_found.
Proof.
  split; [|split; reflexivity].
  unfold show_birthday, input_error, show_birthday_body, find; simpl.
  destruct (dict_get book n) as [r|]; simpl; [|reflexivity].
  destruct (birthday r); reflexivity.
Qed.

(** ** The calendar *)

Lemma days_before_next_year (y : Z) :
  _days_before_year (y + 1)
  = _days_before_year y + 365 + (if _is_leap y then 1 else 0).
Proof.
  unfold _days_before_year, _is_leap.
  replace (y + 1 - 1) with y by lia.
  destruct (y mod 4 =? 0) eqn:E4; destruct (y mod 100 =? 0) eqn:E100;
    destruct (y mod 400 =? 0) eqn:E400; cbn [negb andb orb];
    rewrite ?Z.eqb_eq, ?Z.eqb_neq in *;
    Z.div_mod_to_equations; lia.
Qed.

Lemma valid_date_fields (d : date) :
  valid_date d = true ->
  1 <= year d <= 9999 /\ 1 <= month d <= 12
  /\ 1 <= day d <= _days_in_month (year d) (month d).
Proof.
  unfold valid_date, MINYEAR, MAXYEAR.
  rewrite !andb_true_iff, !Z.leb_le. lia.
Qed.

Lemma valid_date_intro (y m d : Z) :
  1 <= y <= 9999 -> 1 <= m <= 12 -> 1 <= d <= _days_in_month y m ->
  valid_date (mkdate y m d) = true.
Proof.
  intros. unfold valid_date, MINYEAR, MAXYEAR; simpl.
  rewrite !andb_true_iff, !Z.leb_le. lia.
Qed.

Lemma month_cases (m : Z) :
  1 <= m <= 12 ->
  m = 1 \/ m = 2 \/ m = 3 \/ m = 4 \/ m = 5 \/ m = 6 \/ m = 7 \/ m = 8
  \/ m = 9 \/ m = 10 \/ m = 11 \/ m = 12.
Proof. lia. Qed.

Lemma days_in_month_bounds (y m : Z) :
  1 <= m <= 12 -> 28 <= _days_in_month y m <= 31.
Proof.
  intros Hm. unfold _days_in_month.
  destruct (month_cases m Hm) as [H|[H|[H|[H|[H|[H|[H|[H|[H|[H|[H|H]]]]]]]]]]];
    subst m; destruct (_is_leap y); simpl; lia.
Qed.

(** The month that follows starts where this one ends. *)
Lemma days_before_next_month (y m : Z) :
  1 <= m < 12 ->
  _days_before_month y (m + 1) = _days_before_month y m + _days_in_month y m.
Proof.
  intros Hm. unfold _days_before_month, _days_in_month.
  assert (Hc : 1 <= m <= 12) by lia.
  destruct (month_cases m Hc) as [H|[H|[H|[H|[H|[H|[H|[H|[H|[H|[H|H]]]]]]]]]]];
    subst m; try lia; destruct (_is_leap y); simpl; lia.
Qed.

(** The day after a day that has one: a date again, one ordinal later. *)
Lemma next_day_spec (d : date) :
  valid_date d = true ->
  d <> mkdate 9999 12 31 ->
  exists d', next_day d = Returned d'
             /\ valid_date d' = true
             /\ toordinal d' = toordinal d + 1.
Proof.
  intros Hv Hmax. destruct d as [y m dd].
  apply valid_date_fields in Hv; simpl in Hv.
  destruct Hv as (Hy & Hm & Hd).
  pose proof (days_in_month_bounds y m Hm) as Hb.
  unfold next_day, toordinal, _ymd2ord, MAXYEAR; simpl.
  destruct (dd <? _days_in_month y m) eqn:E1.
  - apply Z.ltb_lt in E1. eexists; split; [reflexivity|]. split.
    + apply valid_date_intro; lia.
    + simpl. lia.
  - apply Z.ltb_ge in E1. assert (dd = _days_in_month y m) by lia. subst dd.
    destruct (m <? 12) eqn:E2.
    + apply Z.ltb_lt in E2. eexists; split; [reflexivity|]. split.
      * apply valid_date_intro; try lia.
        pose proof (days_in_month_bounds y (m + 1)). lia.
      * simpl. rewrite days_before_next_month by lia. lia.
    + apply Z.ltb_ge in E2. assert (m = 12) by lia. subst m.
      assert (Hdim : _days_in_month y 12 = 31).
      { unfold _days_in_month; simpl. reflexivity. }
      rewrite Hdim in *.
      destruct (y <? 9999) eqn:E3.
      * apply Z.ltb_lt in E3. eexists; split; [reflexivity|]. split.
        -- apply valid_date_intro; try lia.
           unfold _days_in_month; simpl; lia.
        -- simpl. rewrite days_before_next_year.
           unfold _days_before_month; simpl.
           destruct (_is_leap y); destruct (_is_leap (y + 1)); simpl; lia.
      * apply Z.ltb_ge in E3. exfalso. apply Hmax. f_equal; lia.
Qed.

Lemma weekday_range (d : date) : 0 <= weekday d <= 6.
Proof. unfold weekday. pose proof (Z.mod_pos_bound (toordinal d + 6) 7). lia. Qed.

Lemma weekday_last_day : weekday (mkdate 9999 12 31) = 4.
Proof. reflexivity. Qed.

(** Adding days one at a time, as long as the calendar has them. *)
Lemma add_days_weekend (d : date) (k : Z) :
  valid_date d = true ->
  5 <= weekday d ->
  k = 7 - weekday d ->
  exists d', add_days d (Z.to_nat k) = Returned d'
             /\ valid_date d' = true
             /\ toordinal d' = toordinal d + k
             /\ weekday d' = 0.
Proof.
  intros Hv Hw ->.
  pose proof (weekday_range d) as Hr.
  assert (Hne : d <> mkdate 9999 12 31).
  { intros ->. rewrite weekday_last_day in Hw. lia. }
  destruct (next_day_spec d Hv Hne) as (d1 & H1 & Hv1 & Ho1).
  assert (Hw1 : weekday d1 = (weekday d + 1) mod 7).
  { unfold weekday in *. rewrite Ho1.
    Z.div_mod_to_equations; lia. }
  assert (Hcase : weekday d = 6 \/ weekday d = 5) by lia.
  destruct Hcase as [E|E]; rewrite E in *.
  - exists d1. change (Z.to_nat (7 - 6)) with 1%nat. simpl.
    rewrite H1; simpl. repeat split; auto; lia.
  - assert (Hne1 : d1 <> mkdate 9999 12 31).
    { intros ->. rewrite weekday_last_day in Hw1. discriminate Hw1. }
    destruct (next_day_spec d1 Hv1 Hne1) as (d2 & H2 & Hv2 & Ho2).
    exists d2. change (Z.to_nat (7 - 5)) with 2%nat. simpl.
    rewrite H1; simpl. rewrite H2; simpl. repeat split; auto; try lia.
    unfold weekday in *. rewrite Ho2, Ho1.
    Z.div_mod_to_equations; lia.
Qed.

(** The calendar only moves forward: a later day is not in an earlier
    year. *)
Lemma next_day_year (d d' : date) :
  next_day d = Returned d' -> year d <= year d'.
Proof.
  unfold next_day.
  destruct (day d <? _days_in_month (year d) (month d));
    [intros [= <-]; simpl; lia|].
  destruct (month d <? 12); [intros [= <-]; simpl; lia|].
  destruct (year d <? MAXYEAR); [intros [= <-]; simpl; lia | discriminate].
Qed.

Lemma add_days_year (n : nat) :
  forall d d', add_days d n = Returned d' -> year d <= year d'.
Proof.
  induction n as [|n IH]; intros d d'; simpl.
  - intros [= <-]. lia.
  - destruct (next_day d) as [d1|] eqn:E; [|discriminate].
    cbn [bind]. intros H. apply next_day_year in E. apply IH in H. lia.
Qed.

(** ** Printing numbers *)

Arguments decimal_value : simpl never.

Lemma decimal_value_dot : decimal_value dot = None.
Proof. reflexivity. Qed.

Lemma digits_fuel_four (fuel : nat) (y : Z) :
  (4 <= fuel)%nat -> 1000 <= y <= 9999 ->
  digits_fuel fuel y [] = four_digits y.
Proof.
  intros Hf Hy.
  destruct fuel as [|[|[|[|f]]]]; try lia. clear Hf.
  assert (E1 : (y <? 10) = false) by (apply Z.ltb_ge; lia).
  assert (E2 : (y / 10 <? 10) = false)
    by (apply Z.ltb_ge; Z.div_mod_to_equations; lia).
  assert (E3 : (y / 10 / 10 <? 10) = false)
    by (apply Z.ltb_ge; Z.div_mod_to_equations; lia).
  assert (E4 : (y / 10 / 10 / 10 <? 10) = true)
    by (apply Z.ltb_lt; Z.div_mod_to_equations; lia).
  cbn [digits_fuel]. rewrite E1, E2, E3, E4.
  unfold four_digits.
  replace (y / 10 / 10 / 10) with (y / 1000) by (Z.div_mod_to_equations; lia).
  replace (y / 10 / 10) with (y / 100) by (Z.div_mod_to_equations; lia).
  reflexivity.
Qed.

Lemma str_of_int_year (y : Z) :
  1000 <= y <= 9999 -> str_of_int y = four_digits y.
Proof.
  intros Hy. unfold str_of_int, str_of_nonneg.
  assert ((y <? 0) = false) as -> by (apply Z.ltb_ge; lia).
  apply digits_fuel_four; [|exact Hy].
  assert (9 <= Z.log2 y).
  { change 9 with (Z.log2 512). apply Z.log2_le_mono. lia. }
  lia.
Qed.

(** A year under 1000 is printed with fewer than four digits. *)
Lemma str_of_int_short_year (y : Z) :
  1 <= y < 1000 ->
  (exists a, str_of_int y = [a])
  \/ (exists a b, str_of_int y = [a; b])
  \/ (exists a b c, str_of_int y = [a; b; c]).
Proof.
  intros Hy. unfold str_of_int, str_of_nonneg.
  assert ((y <? 0) = false) as -> by (apply Z.ltb_ge; lia).
  destruct (Z.ltb_spec y 10) as [H1|H1].
  - left. cbn [digits_fuel].
    assert ((y <? 10) = true) as -> by (apply Z.ltb_lt; lia). eauto.
  - assert (E1 : (y <? 10) = false) by (apply Z.ltb_ge; lia).
    destruct (Z.ltb_spec y 100) as [H2|H2].
    + right; left.
      assert (3 <= Z.log2 y).
      { change 3 with (Z.log2 8). apply Z.log2_le_mono. lia. }
      destruct (Z.to_nat (Z.log2 y)) as [|f] eqn:Ef; [lia|].
      cbn [digits_fuel]. rewrite E1.
      assert ((y / 10 <? 10) = true) as ->
          by (apply Z.ltb_lt; Z.div_mod_to_equations; lia).
      eauto.
    + right; right.
      assert (6 <= Z.log2 y).
      { change 6 with (Z.log2 64). apply Z.log2_le_mono. lia. }
      destruct (Z.to_nat (Z.log2 y)) as [|[|f]] eqn:Ef; try lia.
      cbn [digits_fuel]. rewrite E1.
      assert ((y / 10 <? 10) = false) as ->
          by (apply Z.ltb_ge; Z.div_mod_to_equations; lia).
      assert ((y / 10 / 10 <? 10) = true) as ->
          by (apply Z.ltb_lt; Z.div_mod_to_equations; lia).
      eauto.
Qed.

Lemma four_digits_value (y : Z) :
  0 <= y <= 9999 ->
  1000 * (y / 1000) + 100 * ((y / 100) mod 10)
  + 10 * ((y / 10) mod 10) + y mod 10 = y.
Proof. intros Hy. Z.div_mod_to_equations. lia. Qed.

(** ** Reading dates *)

Lemma re_Y_four_digits (y : Z) (rest : str) :
  1000 <= y <= 9999 -> re_Y (four_digits y ++ rest) = [(y, rest)].
Proof.
  intros Hy. unfold four_digits. cbn [app re_Y].
  rewrite !decimal_value_ascii by (Z.div_mod_to_equations; lia).
  rewrite four_digits_value by lia. reflexivity.
Qed.

Lemma re_Y_dot_2 (a : Z) (r : str) : re_Y (a :: dot :: r) = [].
Proof.
  destruct r as [|c [|d r]]; cbn [re_Y]; try reflexivity.
  rewrite decimal_value_dot. destruct (decimal_value a); reflexivity.
Qed.

Lemma re_Y_dot_3 (a b : Z) (r : str) : re_Y (a :: b :: dot :: r) = [].
Proof.
  destruct r as [|d r]; cbn [re_Y]; try reflexivity.
  rewrite decimal_value_dot.
  destruct (decimal_value a), (decimal_value b); reflexivity.
Qed.

Lemma re_Y_dot_4 (a b c : Z) (r : str) : re_Y (a :: b :: c :: dot :: r) = [].
Proof.
  cbn [re_Y]. rewrite decimal_value_dot.
  destruct (decimal_value a), (decimal_value b), (decimal_value c);
    reflexivity.
Qed.

(** A property of the integers of a short range, checked one by one. *)
Lemma range_cases (P : Z -> Prop) (lo : Z) (n : nat) :
  Forall P (map (fun k => lo + Z.of_nat k) (seq 0 n)) ->
  forall d, lo <= d < lo + Z.of_nat n -> P d.
Proof.
  rewrite Forall_forall. intros H d Hd. apply H.
  apply in_map_iff. exists (Z.to_nat (d - lo)). split; [lia|].
  apply in_seq. lia.
Qed.

(** The month and the day of [this_year_text] are read back as they were
    printed; the first match of the day takes all of its digits. *)
Lemma read_month_day (y m d : Z) :
  1 <= m <= 12 -> 1 <= d <= 31 ->
  exists others,
    re_match [Lit dot; Dir_m; Lit dot; Dir_d] (y, 1, 1)
             (dot :: str_of_int m ++ dot :: str_of_int d)
    = ((y, m, d), []) :: others.
Proof.
  intros Hm Hd. revert d Hd.
  apply (range_cases
           (fun m => forall d, 1 <= d <= 31 -> exists others,
              re_match [Lit dot; Dir_m; Lit dot; Dir_d] (y, 1, 1)
                       (dot :: str_of_int m ++ dot :: str_of_int d)
              = ((y, m, d), []) :: others) 1 12); [|lia].
  repeat constructor; intros d Hd;
    apply (range_cases
             (fun d => exists others,
                re_match [Lit dot; Dir_m; Lit dot; Dir_d] (y, 1, 1)
                         (dot :: str_of_int _ ++ dot :: str_of_int d)
                = ((y, _, d), []) :: others) 1 31); try lia;
    repeat constructor; eexists; lazy; reflexivity.
Qed.

Lemma re_match_year_first (fmt : list directive) (y0 m0 d0 y : Z) (rest : str) :
  1000 <= y <= 9999 ->
  re_match (Dir_Y :: fmt) (y0, m0, d0) (four_digits y ++ rest)
  = re_match fmt (y, m0, d0) rest.
Proof.
  intros Hy.
  change (re_match (Dir_Y :: fmt) (y0, m0, d0) (four_digits y ++ rest))
    with (flat_map (fun vr => re_match fmt (fst vr, m0, d0) (snd vr))
                   (re_Y (four_digits y ++ rest))).
  rewrite re_Y_four_digits by exact Hy.
  cbn [flat_map fst snd]. apply app_nil_r.
Qed.

Lemma re_match_year_no_match (fmt : list directive) (f : found) (s : str) :
  re_Y s = [] -> re_match (Dir_Y :: fmt) f s = [].
Proof.
  intros H. destruct f as [[y0 m0] d0].
  change (re_match (Dir_Y :: fmt) (y0, m0, d0) s)
    with (flat_map (fun vr => re_match fmt (fst vr, m0, d0) (snd vr))
                   (re_Y s)).
  rewrite H. reflexivity.
Qed.

(** What [birthday_this_year] computes for a stored birthday when the
    year of the clock has four digits: the date of that month and day in
    the year of the clock, if the calendar has it. *)
Lemma birthday_this_year_valid (today : datetime) (b : date) :
  1000 <= year (dt_date today) <= 9999 ->
  valid_date b = true ->
  birthday_this_year today b
  = (dd <- new_date (year (dt_date today)) (month b) (day b) ;;
     Returned (midnight dd)).
Proof.
  intros Hy Hb. apply valid_date_fields in Hb. destruct Hb as (_ & Hm & Hd).
  pose proof (days_in_month_bounds (year b) (month b) Hm) as Hdim.
  unfold birthday_this_year, this_year_text, strptime, fmt_Ymd.
  rewrite (str_of_int_year _ Hy), re_match_year_first by exact Hy.
  destruct (read_month_day (year (dt_date today)) (month b) (day b))
    as (others & E); [lia | lia |].
  cbn [app]. rewrite E. reflexivity.
Qed.

(** A clock whose year has fewer than four digits: no birthday can be
    placed in that year. *)
Lemma birthday_this_year_short_year (today : datetime) (b : date) :
  1 <= year (dt_date today) < 1000 ->
  birthday_this_year today b = Raised (ValueError TimeDataMismatch).
Proof.
  intros Hy. unfold birthday_this_year, this_year_text, strptime, fmt_Ymd.
  rewrite re_match_year_no_match; [reflexivity|].
  destruct (str_of_int_short_year _ Hy)
    as [(a & ->)|[(a & c & ->)|(a & c & e & ->)]]; cbn [app].
  - apply re_Y_dot_2.
  - apply re_Y_dot_3.
  - apply re_Y_dot_4.
Qed.

(** ** Whole days between the occurrence and the clock *)

(** [difference] counts whole days down from the clock, time of day
    included: once midnight is past, it is one less than the number of
    calendar days. *)
Lemma difference_of_midnight (d : date) (today : datetime) :
  valid_time today ->
  difference (midnight d) today
  = calendar_days d today - (if at_midnight today then 0 else 1).
Proof.
  intros (Hh & Hm & Hs & Hu).
  unfold difference, datetime_sub, new_timedelta, calendar_days, at_midnight,
    seconds_of_day; simpl.
  destruct (second today + minute today * 60 + hour today * 3600 =? 0) eqn:E1;
    destruct (microsecond today =? 0) eqn:E2; cbn [andb];
    rewrite ?Z.eqb_eq, ?Z.eqb_neq in *;
    Z.div_mod_to_equations; lia.
Qed.

(** ** Printing the congratulation date *)

Lemma pad2_digits (n : Z) :
  0 <= n <= 99 -> pad2 n = [48 + n / 10; 48 + n mod 10].
Proof.
  intros Hn. unfold pad2, str_of_int, str_of_nonneg.
  assert ((n <? 0) = false) as -> by (apply Z.ltb_ge; lia).
  destruct (n <? 10) eqn:E.
  - apply Z.ltb_lt in E. cbn [digits_fuel].
    assert ((n <? 10) = true) as -> by (apply Z.ltb_lt; lia).
    rewrite Z.div_small, Z.mod_small by lia. reflexivity.
  - apply Z.ltb_ge in E.
    assert (3 <= Z.log2 n).
    { change 3 with (Z.log2 8). apply Z.log2_le_mono. lia. }
    destruct (Z.to_nat (Z.log2 n)) as [|f] eqn:Ef; [lia|].
    cbn [digits_fuel].
    assert ((n <? 10) = false) as -> by (apply Z.ltb_ge; lia).
    assert ((n / 10 <? 10) = true) as ->
        by (apply Z.ltb_lt; Z.div_mod_to_equations; lia).
    reflexivity.
Qed.

Lemma strftime_shape (d : date) :
  valid_date d = true -> 1000 <= year d ->
  shape_Ymd (strftime_Ymd (midnight d)).
Proof.
  intros Hv Hy. apply valid_date_fields in Hv. destruct Hv as (Hy' & Hm & Hd).
  pose proof (days_in_month_bounds (year d) (month d) Hm) as Hdim.
  unfold strftime_Ymd, shape_Ymd; simpl.
  rewrite str_of_int_year, !pad2_digits by lia.
  unfold four_digits. do 8 eexists. split; [reflexivity|].
  repeat constructor; unfold ascii_digit; Z.div_mod_to_equations; lia.
Qed.

(** ** The scan of the directory *)

Lemma upcoming_step_inv (today : datetime) (user : ContactRecord)
      (acc acc' : list entry) :
  upcoming_step today user acc = Returned acc' ->
  acc' = acc \/ exists e, acc' = acc ++ [e] /\ emits today user e.
Proof.
  unfold upcoming_step, emits.
  destruct (birthday user) as [b|]; [|discriminate].
  destruct (birthday_this_year today b) as [occ|] eqn:Eo; [|discriminate].
  cbn [bind].
  destruct ((0 <=? difference occ today) && (difference occ today <=? 7)) eqn:Ed.
  - destruct (shift_weekend occ) as [c|] eqn:Ec; [|discriminate].
    cbn [bind]. intros [= <-]. right. eexists; split; [reflexivity|].
    exists b, occ, c. apply andb_true_iff in Ed.
    rewrite !Z.leb_le in Ed. repeat split; auto; lia.
  - intros [= <-]. left; reflexivity.
Qed.

Lemma upcoming_loop_inv (today : datetime) (users : list ContactRecord) :
  forall acc res,
    upcoming_loop today users acc = Returned res ->
    forall e, In e res ->
              In e acc \/ exists user, In user users /\ emits today user e.
Proof.
  induction users as [|user rest IH]; intros acc res; simpl.
  - intros [= <-] e He; left; exact He.
  - destruct (upcoming_step today user acc) as [acc'|] eqn:Es; [|discriminate].
    cbn [bind]. intros Hl e He.
    destruct (IH _ _ Hl e He) as [Hin|(u & Hu & Hem)].
    + destruct (upcoming_step_inv _ _ _ _ Es) as [->|(e' & -> & Hem)].
      * left; exact Hin.
      * apply in_app_or in Hin. destruct Hin as [Hin|[<-|[]]].
        -- left; exact Hin.
        -- right. exists user; split; [left; reflexivity | exact Hem].
    + right. exists u; split; [right; exact Hu | exact Hem].
Qed.

(** The scan stops at the first record that has no birthday: it raises
    and returns no list at all. *)
Lemma upcoming_loop_unset_birthday (today : datetime)
      (users : list ContactRecord) :
  (exists user, In user users /\ birthday user = None) ->
  forall acc res, upcoming_loop today users acc <> Returned res.
Proof.
  intros (u & Hu & Hb). induction users as [|user rest IH]; [contradiction|].
  intros acc res. simpl.
  destruct Hu as [->|Hu].
  - unfold upcoming_step. rewrite Hb. discriminate.
  - destruct (upcoming_step today user acc); cbn [bind];
      [apply IH, Hu | discriminate].
Qed.

(** The occurrence of a stored birthday, once it has been built. *)
Lemma birthday_this_year_built (today : datetime) (b : date)
      (occurrence : datetime) :
  valid_date (dt_date today) = true ->
  valid_date b = true ->
  birthday_this_year today b = Returned occurrence ->
  let o := mkdate (year (dt_date today)) (month b) (day b) in
  occurrence = midnight o /\ valid_date o = true
  /\ 1000 <= year (dt_date today).
Proof.
  intros Ht Hb Ho o. apply valid_date_fields in Ht. destruct Ht as (Hy & _).
  destruct (Z.ltb_spec (year (dt_date today)) 1000) as [Hs|Hs].
  - rewrite birthday_this_year_short_year in Ho by lia. discriminate.
  - rewrite birthday_this_year_valid in Ho by (auto; lia).
    unfold new_date in Ho. fold o in Ho.
    destruct (valid_date o) eqn:Ev; [|discriminate].
    cbn [bind] in Ho. injection Ho as <-. auto.
Qed.

(** The shift of an occurrence at midnight: a weekday stays, a Saturday
    or a Sunday moves to the Monday that follows. *)
Lemma shift_weekend_spec (o : date) :
  valid_date o = true ->
  exists c,
    shift_weekend (midnight o) = Returned (midnight c)
    /\ valid_date c = true
    /\ (weekday o < 5 -> c = o)
    /\ (5 <= weekday o ->
        add_days o (Z.to_nat (7 - weekday o)) = Returned c
        /\ toordinal c = toordinal o + (7 - weekday o)
        /\ weekday c = 0).
Proof.
  intros Hv. unfold shift_weekend, datetime_add_days, midnight.
  cbn [dt_date hour minute second microsecond].
  destruct (5 <=? weekday o) eqn:E.
  - apply Z.leb_le in E.
    destruct (add_days_weekend o (7 - weekday o) Hv E eq_refl)
      as (c & Hc & Hvc & Ho & Hw).
    exists c. rewrite Hc. cbn [bind]. repeat split; auto. lia.
  - apply Z.leb_gt in E. exists o. repeat split; auto; lia.
Qed.

(** C2: every item of the result comes from a record of the directory
    whose occurrence in the year of the clock is a date of the calendar;
    the item bears the name of the record; when the occurrence is a
    Saturday or a Sunday (weekday 5 or 6, Monday being 0) the date of the
    item is the occurrence moved forward by [7 - weekday] days, which is a
    Monday, and otherwise it is the occurrence itself; the date is printed
    as four digits, a dot, two digits, a dot, two digits. *)
Theorem congratulation_date_shifts_weekend_to_monday
        (book : AddressBook) (today : datetime) (res : list entry) (e : entry)
        (Htoday : valid_date (dt_date today) = true)
        (Hbook : birthdays_valid (dict_values book))
        (Hres : get_upcoming_birthdays book today = Returned res)
        (He : In e res) :
  exists user b,
    In user (dict_values book)
    /\ birthday user = Some b
    /\ entry_name e = name user
    /\ let o := mkdate (year (dt_date today)) (month b) (day b) in
       birthday_this_year today b = Returned (midnight o)
       /\ valid_date o = true
       /\ (5 <= weekday o ->
           exists c, add_days o (Z.to_nat (7 - weekday o)) = Returned c
                     /\ toordinal c = toordinal o + (7 - weekday o)
                     /\ weekday c = 0
                     /\ congratulation_date e = strftime_Ymd (midnight c))
       /\ (weekday o < 5 -> congratulation_date e = strftime_Ymd (midnight o))
       /\ shape_Ymd (congratulation_date e).
Proof.
  unfold get_upcoming_birthdays in Hres.
  destruct (upcoming_loop_inv _ _ _ _ Hres e He) as [[]|(user & Hu & Hem)].
  destruct Hem as (b & occ & c & Hb & Ho & _ & Hc & ->).
  pose proof (Hbook user b Hu Hb) as Hvb.
  destruct (birthday_this_year_built today b occ Htoday Hvb Ho)
    as (-> & Hvo & Hy).
  exists user, b.
  split; [exact Hu|]. split; [exact Hb|]. split; [reflexivity|].
  cbv zeta.
  set (o := mkdate (year (dt_date today)) (month b) (day b)) in *.
  destruct (shift_weekend_spec o Hvo) as (c' & Hc' & Hvc & Hweek & Hwend).
  rewrite Hc' in Hc. injection Hc as <-. cbn [congratulation_date].
  split; [exact Ho|]. split; [exact Hvo|].
  split; [|split].
  - intros Hw. destruct (Hwend Hw) as (Ha & Hord & Hmon).
    exists c'. auto.
  - intros Hw. rewrite (Hweek Hw). reflexivity.
  - apply strftime_shape; [exact Hvc|].
    destruct (Z.ltb_spec (weekday o) 5) as [Hw|Hw].
    + rewrite (Hweek Hw). exact Hy.
    + destruct (Hwend Hw) as (Ha & _ & _).
      apply add_days_year in Ha. simpl in Ha. lia.
Qed.

Lemma congratulation_date_shifts_weekend_to_monday_witness :
  let today := mkdatetime (mkdate 2024 6 10) 12 0 0 0 in
  let ben := mkRecord (lit "Ben") [lit "1234567890"] (Some (mkdate 1985 6 15)) in
  let e := mkentry (lit "Ben") (lit "2024.06.17") in
  get_upcoming_birthdays [(lit "Ben", ben)] today = Returned [e]
  /\ weekday (mkdate 2024 6 15) = 5
  /\ exists user b,
       In user [ben] /\ birthday user = Some b /\ entry_name e = name user
       /\ let o := mkdate 2024 (month b) (day b) in
          birthday_this_year today b = Returned (midnight o)
          /\ valid_date o = true
          /\ (5 <= weekday o ->
              exists c, add_days o (Z.to_nat (7 - weekday o)) = Returned c
                        /\ toordinal c = toordinal o + (7 - weekday o)
                        /\ weekday c = 0
                        /\ congratulation_date e = strftime_Ymd (midnight c))
          /\ (weekday o < 5 -> congratulation_date e = strftime_Ymd (midnight o))
          /\ shape_Ymd (congratulation_date e).
Proof.
  intros today ben e.
  split; [reflexivity|]. split; [reflexivity|].
  apply (congratulation_date_shifts_weekend_to_monday
           [(lit "Ben", ben)] today [e] e).
  - reflexivity.
  - intros user b [<-|[]] [= <-]. reflexivity.
  - reflexivity.
  - left; reflexivity.
Defined.

(** X17: Once midnight is past, the window of the scan is one calendar day
    late: a record whose occurrence can be built is put in the result when
    the occurrence is from 1 to 8 calendar days after the day of the
    clock; only at midnight sharp is it from 0 to 7. *)
Lemma upcoming_step_window (today : datetime) (user : ContactRecord)
      (b : date) (occurrence : datetime) :
  valid_date (dt_date today) = true ->
  valid_time today ->
  birthday user = Some b ->
  valid_date b = true ->
  birthday_this_year today b = Returned occurrence ->
  let n := calendar_days (dt_date occurrence) today in
  let lo := if at_midnight today then 0 else 1 in
  (lo <= n <= lo + 7 -> exists e, upcoming_step today user [] = Returned [e])
  /\ (~ lo <= n <= lo + 7 -> upcoming_step today user [] = Returned []).
Proof.
  intros Ht Htime Hb Hvb Ho n lo.
  destruct (birthday_this_year_built today b occurrence Ht Hvb Ho)
    as (E & Hvo & Hy).
  subst n lo. unfold upcoming_step. rewrite Hb, Ho. cbn [bind].
  rewrite E. cbn [dt_date midnight].
  set (o := mkdate (year (dt_date today)) (month b) (day b)) in *.
  change (mkdatetime o 0 0 0 0) with (midnight o).
  rewrite (difference_of_midnight o today Htime).
  destruct (shift_weekend_spec o Hvo) as (c & Hc & _).
  rewrite Hc. cbn [bind].
  split; intros H.
  - assert (((0 <=? calendar_days o today - (if at_midnight today then 0 else 1))
             && (calendar_days o today - (if at_midnight today then 0 else 1) <=? 7))
            = true) as ->.
    { apply andb_true_iff. rewrite !Z.leb_le.
      destruct (at_midnight today); lia. }
    eexists. reflexivity.
  - assert (((0 <=? calendar_days o today - (if at_midnight today then 0 else 1))
             && (calendar_days o today - (if at_midnight today then 0 else 1) <=? 7))
            = false) as ->.
    { apply andb_false_iff. rewrite !Z.leb_gt.
      destruct (at_midnight today); lia. }
    reflexivity.
Qed.

(** C1, on the code: at noon on 10 June 2024 a birthday that falls on
    that very day is 0 calendar days away, yet [difference] is -1 and the
    record is left out; a birthday on 18 June is 8 calendar days away, yet
    [difference] is 7 and the record is put in. *)
Theorem upcoming_window_is_one_day_late :
  let noon := mkdatetime (mkdate 2024 6 10) 12 0 0 0 in
  let anna := mkRecord (lit "Anna") [lit "1234567890"] (Some (mkdate 1990 6 10)) in
  let cara := mkRecord (lit "Cara") [lit "1234567890"] (Some (mkdate 1990 6 18)) in
  calendar_days (mkdate 2024 6 10) noon = 0
  /\ difference (midnight (mkdate 2024 6 10)) noon = -1
  /\ get_upcoming_birthdays [(lit "Anna", anna)] noon = Returned []
  /\ calendar_days (mkdate 2024 6 18) noon = 8
  /\ difference (midnight (mkdate 2024 6 18)) noon = 7
  /\ get_upcoming_birthdays [(lit "Cara", cara)] noon
     = Returned [mkentry (lit "Cara") (lit "2024.06.18")].
Proof. repeat split; reflexivity. Qed.

(** C3, on the code: one record without a birthday makes the scan raise
    [AttributeError], which [birthdays] lets through, and one record born
    on 29 February makes it raise [ValueError] in a year that is not a
    leap year, which [birthdays] turns into its text for wrong values;
    in both cases the record of Ben, whose birthday is two days ahead,
    gets no line. *)
Theorem scan_aborts_on_unset_or_unbuildable_birthday :
  let noon24 := mkdatetime (mkdate 2024 6 10) 12 0 0 0 in
  let noon23 := mkdatetime (mkdate 2023 6 10) 12 0 0 0 in
  let anna := (lit "Anna", mkRecord (lit "Anna") [lit "1234567890"] None) in
  let ben := (lit "Ben", mkRecord (lit "Ben") [lit "1234567890"]
                                  (Some (mkdate 1990 6 12))) in
  let zed := (lit "Zed", mkRecord (lit "Zed") [lit "1234567890"]
                                  (Some (mkdate 2000 2 29))) in
  get_upcoming_birthdays [ben] noon24
  = Returned [mkentry (lit "Ben") (lit "2024.06.12")]
  /\ get_upcoming_birthdays [anna; ben] noon24 = Raised AttributeError
  /\ birthdays noon24 [anna; ben] = (Raised AttributeError, [anna; ben])
  /\ Birthday (lit "29.02.2000") = Returned (mkdate 2000 2 29)
  /\ get_upcoming_birthdays [ben] noon23
     = Returned [mkentry (lit "Ben") (lit "2023.06.12")]
  /\ get_upcoming_birthdays [zed; ben] noon23
     = Raised (ValueError DateOutOfRange)
  /\ birthdays noon23 [zed; ben]
     = (Returned (VStr give_me_correct_values), [zed; ben]).
Proof. repeat split; reflexivity. Qed.

(** ** The texts [Birthday] accepts *)

Lemma between_true (lo hi c : Z) : between lo hi c = true <-> lo <= c <= hi.
Proof. unfold between. rewrite andb_true_iff, !Z.leb_le. tauto. Qed.

Ltac alt_inv H :=
  repeat match type of H with
  | In _ (if ?b then _ else _) =>
      let E := fresh "E" in destruct b eqn:E; [|contradiction H]
  | In _ (match ?x with Some _ => _ | None => _ end) =>
      let E := fresh "E" in destruct x eqn:E; [|contradiction H]
  | In _ [_] => destruct H as [H|[]]; injection H as <- <-
  | In _ [] => contradiction H
  end;
  repeat match goal with
  | E : _ && _ = true |- _ => apply andb_true_iff in E; destruct E
  | E : (_ =? _) = true |- _ => apply Z.eqb_eq in E; subst
  | E : between _ _ _ = true |- _ => apply between_true in E
  end.

Lemma re_d_In (s : str) (v : Z) (r : str) :
  In (v, r) (re_d s) <-> exists t, s = t ++ r /\ day_text t v.
Proof.
  split.
  - unfold re_d. rewrite !in_app_iff.
    destruct s as [|a [|c r']]; cbv beta iota;
      intros [H|[H|[H|[H|H]]]]; alt_inv H.
    + exists [a]; split; [reflexivity | constructor; assumption].
    + exists [51; c]; split; [reflexivity | constructor; assumption].
    + exists [a; c]; split; [reflexivity | constructor; assumption].
    + exists [48; c]; split; [reflexivity | constructor; assumption].
    + exists [a]; split; [reflexivity | constructor; assumption].
    + exists [32; c]; split; [reflexivity | constructor; assumption].
  - intros (t & -> & Ht). unfold re_d. rewrite !in_app_iff.
    destruct Ht as [c Hc|a c w Ha Hc|c Hc|c Hc|c Hc]; cbn [app].
    + left. rewrite Z.eqb_refl, (proj2 (between_true _ _ _) Hc).
      left; reflexivity.
    + right; left. rewrite (proj2 (between_true _ _ _) Ha), Hc.
      left; reflexivity.
    + right; right; left.
      rewrite Z.eqb_refl, (proj2 (between_true _ _ _) Hc). left; reflexivity.
    + right; right; right; left.
      destruct r; rewrite (proj2 (between_true _ _ _) Hc); left; reflexivity.
    + right; right; right; right.
      rewrite Z.eqb_refl, (proj2 (between_true _ _ _) Hc). left; reflexivity.
Qed.

Lemma re_m_In (s : str) (v : Z) (r : str) :
  In (v, r) (re_m s) <-> exists t, s = t ++ r /\ month_text t v.
Proof.
  split.
  - unfold re_m. rewrite !in_app_iff.
    destruct s as [|a [|c r']]; cbv beta iota;
      intros [H|[H|H]]; alt_inv H.
    + exists [a]; split; [reflexivity | constructor; assumption].
    + exists [49; c]; split; [reflexivity | constructor; assumption].
    + exists [48; c]; split; [reflexivity | constructor; assumption].
    + exists [a]; split; [reflexivity | constructor; assumption].
  - intros (t & -> & Ht). unfold re_m. rewrite !in_app_iff.
    destruct Ht as [c Hc|c Hc|c Hc]; cbn [app].
    + left. rewrite Z.eqb_refl, (proj2 (between_true _ _ _) Hc).
      left; reflexivity.
    + right; left.
      rewrite Z.eqb_refl, (proj2 (between_true _ _ _) Hc). left; reflexivity.
    + right; right.
      destruct r; rewrite (proj2 (between_true _ _ _) Hc); left; reflexivity.
Qed.

Lemma re_Y_In (s : str) (v : Z) (r : str) :
  In (v, r) (re_Y s) <-> exists t, s = t ++ r /\ year_text t v.
Proof.
  split.
  - unfold re_Y. destruct s as [|a [|b [|c [|d r']]]]; try contradiction.
    intros H.
    destruct (decimal_value a) eqn:Ea; [|contradiction H].
    destruct (decimal_value b) eqn:Eb; [|contradiction H].
    destruct (decimal_value c) eqn:Ec; [|contradiction H].
    destruct (decimal_value d) eqn:Ed; [|contradiction H].
    destruct H as [H|[]]. injection H as <- <-.
    exists [a; b; c; d]. split; [reflexivity | constructor; assumption].
  - intros (t & -> & Ht). destruct Ht. cbn [app re_Y].
    rewrite H, H0, H1, H2. left; reflexivity.
Qed.

(** No text of a day, of a month or of a year holds a dot, so the dots
    cut a text in one way only. *)
Lemma day_text_unique (t1 t2 : str) (v1 v2 : Z) (r1 r2 : str) :
  day_text t1 v1 -> day_text t2 v2 ->
  t1 ++ dot :: r1 = t2 ++ dot :: r2 ->
  v1 = v2 /\ r1 = r2.
Proof.
  pose proof decimal_value_dot as Hdot. unfold dot in *.
  intros H1 H2 E.
  destruct H1; destruct H2; cbn [app] in E; injection E; intros; subst;
    try lia; try congruence; split; congruence.
Qed.

Lemma month_text_unique (t1 t2 : str) (v1 v2 : Z) (r1 r2 : str) :
  month_text t1 v1 -> month_text t2 v2 ->
  t1 ++ dot :: r1 = t2 ++ dot :: r2 ->
  v1 = v2 /\ r1 = r2.
Proof.
  unfold dot. intros H1 H2 E.
  destruct H1; destruct H2; cbn [app] in E; injection E; intros; subst;
    try lia; split; congruence.
Qed.

Lemma year_text_unique (t1 t2 : str) (v1 v2 : Z) (r1 r2 : str) :
  year_text t1 v1 -> year_text t2 v2 ->
  t1 ++ r1 = t2 ++ r2 ->
  v1 = v2 /\ r1 = r2.
Proof.
  intros H1 H2 E.
  destruct H1; destruct H2; cbn [app] in E; injection E; intros; subst.
  split; congruence.
Qed.

(** The matches of ["%d.%m.%Y"]: a day, a dot, a month, a dot, a year,
    and whatever follows. *)
Lemma re_match_dmY_In (f0 : found) (s : str) (y m d : Z) (rest : str) :
  In ((y, m, d), rest) (re_match fmt_dmY f0 s)
  <-> exists td tm ty,
        s = td ++ dot :: tm ++ dot :: ty ++ rest
        /\ day_text td d /\ month_text tm m /\ year_text ty y.
Proof.
  destruct f0 as [[y0 m0] d0]. unfold fmt_dmY. cbn [re_match].
  rewrite in_flat_map. split.
  - intros ([vd rd] & Hd & H). cbn [fst snd] in H.
    destruct rd as [|c rd]; [contradiction|].
    destruct (c =? dot) eqn:Ec; [|contradiction].
    apply Z.eqb_eq in Ec; subst c.
    apply in_flat_map in H. destruct H as ([vm rm] & Hm & H).
    cbn [fst snd] in H.
    destruct rm as [|c rm]; [contradiction|].
    destruct (c =? dot) eqn:Ec; [|contradiction].
    apply Z.eqb_eq in Ec; subst c.
    apply in_flat_map in H. destruct H as ([vy ry] & Hy & H).
    cbn [fst snd] in H. destruct H as [H|[]]. injection H as <- <- <- <-.
    apply re_d_In in Hd. destruct Hd as (td & -> & Hd).
    apply re_m_In in Hm. destruct Hm as (tm & -> & Hm).
    apply re_Y_In in Hy. destruct Hy as (ty & -> & Hy).
    exists td, tm, ty. auto.
  - intros (td & tm & ty & -> & Hd & Hm & Hy).
    exists (d, dot :: tm ++ dot :: ty ++ rest). split.
    + apply re_d_In. exists td. auto.
    + cbn [fst snd]. rewrite Z.eqb_refl. apply in_flat_map.
      exists (m, dot :: ty ++ rest). split.
      * apply re_m_In. exists tm. auto.
      * cbn [fst snd]. rewrite Z.eqb_refl. apply in_flat_map.
        exists (y, rest). split.
        -- apply re_Y_In. exists ty. auto.
        -- left; reflexivity.
Qed.

Lemma re_match_dmY_unique (f0 : found) (s : str) (x1 x2 : found * str) :
  In x1 (re_match fmt_dmY f0 s) -> In x2 (re_match fmt_dmY f0 s) -> x1 = x2.
Proof.
  destruct x1 as [[[y1 m1] d1] r1], x2 as [[[y2 m2] d2] r2].
  rewrite !re_match_dmY_In.
  intros (td1 & tm1 & ty1 & -> & Hd1 & Hm1 & Hy1)
         (td2 & tm2 & ty2 & E & Hd2 & Hm2 & Hy2).
  destruct (day_text_unique _ _ _ _ _ _ Hd1 Hd2 E) as (-> & E1).
  destruct (month_text_unique _ _ _ _ _ _ Hm1 Hm2 E1) as (-> & E2).
  destruct (year_text_unique _ _ _ _ _ _ Hy1 Hy2 E2) as (-> & ->).
  reflexivity.
Qed.

Lemma new_date_returned (y m d : Z) (dd : date) :
  new_date y m d = Returned dd <-> dd = mkdate y m d /\ valid_date dd = true.
Proof.
  unfold new_date. destruct (valid_date (mkdate y m d)) eqn:E; split.
  - intros [= <-]. auto.
  - intros [-> _]. reflexivity.
  - discriminate.
  - intros [-> H]. congruence.
Qed.

(** [Birthday] returns a date or raises the [ValueError] of the class. *)
Lemma Birthday_total (raw : str) :
  (exists dt, Birthday raw = Returned dt)
  \/ Birthday raw = Raised (ValueError InvalidDateFormat).
Proof.
  unfold Birthday, strptime.
  destruct (re_match fmt_dmY (1900, 1, 1) raw) as [|[[[y m] d] [|c rest]] tl];
    auto.
  unfold new_date. destruct (valid_date (mkdate y m d)); cbn [bind]; eauto.
Qed.

Lemma Birthday_returned_iff (raw : str) (dt : date) :
  Birthday raw = Returned dt
  <-> exists td tm ty,
        raw = td ++ dot :: tm ++ dot :: ty
        /\ day_text td (day dt) /\ month_text tm (month dt)
        /\ year_text ty (year dt)
        /\ valid_date dt = true.
Proof.
  unfold Birthday, strptime. split.
  - destruct (re_match fmt_dmY (1900, 1, 1) raw)
      as [|[[[y m] d] [|c rest]] tl] eqn:E; try discriminate.
    destruct (new_date y m d) as [dd|e] eqn:En; cbn [bind];
      [|destruct e; discriminate].
    cbn [dt_date midnight]. intros [= <-].
    apply new_date_returned in En. destruct En as (-> & Hv).
    assert (Hin : In ((y, m, d), []) (re_match fmt_dmY (1900, 1, 1) raw))
      by (rewrite E; left; reflexivity).
    apply re_match_dmY_In in Hin.
    destruct Hin as (td & tm & ty & -> & Hd & Hm & Hy).
    exists td, tm, ty. rewrite app_nil_r. auto.
  - intros (td & tm & ty & -> & Hd & Hm & Hy & Hv). destruct dt as [y m d].
    cbn [year month day] in *.
    assert (Hin : In ((y, m, d), [])
                     (re_match fmt_dmY (1900, 1, 1)
                               (td ++ dot :: tm ++ dot :: ty))).
    { apply re_match_dmY_In. exists td, tm, ty. rewrite app_nil_r. auto. }
    destruct (re_match fmt_dmY (1900, 1, 1) (td ++ dot :: tm ++ dot :: ty))
      as [|h tl] eqn:E; [contradiction|].
    assert (h = ((y, m, d), [])) as ->.
    { apply (re_match_dmY_unique (1900, 1, 1) (td ++ dot :: tm ++ dot :: ty));
        rewrite E; [left; reflexivity | exact Hin]. }
    unfold new_date. rewrite Hv. reflexivity.
Qed.

(** *** Dates written strictly as [DD.MM.YYYY] *)

Lemma day_text_cast (t : str) (v v' : Z) : day_text t v -> v = v' -> day_text t v'.
Proof. intros H <-. exact H. Qed.

Lemma month_text_cast (t : str) (v v' : Z) :
  month_text t v -> v = v' -> month_text t v'.
Proof. intros H <-. exact H. Qed.

Lemma year_text_cast (t : str) (v v' : Z) :
  year_text t v -> v = v' -> year_text t v'.
Proof. intros H <-. exact H. Qed.

Lemma day_text_pad2 (d : Z) : 1 <= d <= 31 -> day_text (pad2 d) d.
Proof.
  intros Hd. rewrite pad2_digits by lia.
  assert (Hq : d / 10 = 0 \/ d / 10 = 1 \/ d / 10 = 2 \/ d / 10 = 3)
    by (Z.div_mod_to_equations; lia).
  destruct Hq as [Hq|[Hq|[Hq|Hq]]]; rewrite Hq.
  - apply (day_text_cast _ (48 + d mod 10 - 48));
      [apply day_zero_padded | ]; Z.div_mod_to_equations; lia.
  - apply (day_text_cast _ (10 * (48 + 1 - 48) + d mod 10));
      [apply day_tens; [lia | apply decimal_value_ascii] | ];
      Z.div_mod_to_equations; lia.
  - apply (day_text_cast _ (10 * (48 + 2 - 48) + d mod 10));
      [apply day_tens; [lia | apply decimal_value_ascii] | ];
      Z.div_mod_to_equations; lia.
  - apply (day_text_cast _ (30 + (48 + d mod 10 - 48)));
      [apply day_thirties | ]; Z.div_mod_to_equations; lia.
Qed.

Lemma month_text_pad2 (m : Z) : 1 <= m <= 12 -> month_text (pad2 m) m.
Proof.
  intros Hm. rewrite pad2_digits by lia.
  assert (Hq : m / 10 = 0 \/ m / 10 = 1) by (Z.div_mod_to_equations; lia).
  destruct Hq as [Hq|Hq]; rewrite Hq.
  - apply (month_text_cast _ (48 + m mod 10 - 48));
      [apply month_zero_padded | ]; Z.div_mod_to_equations; lia.
  - apply (month_text_cast _ (10 + (48 + m mod 10 - 48)));
      [apply month_tens | ]; Z.div_mod_to_equations; lia.
Qed.

Lemma year_text_four_digits (y : Z) :
  0 <= y <= 9999 -> year_text (four_digits y) y.
Proof.
  intros Hy. unfold four_digits.
  eapply year_text_cast.
  - apply year_digits; apply decimal_value_ascii; Z.div_mod_to_equations; lia.
  - apply four_digits_value, Hy.
Qed.

Lemma format_dmY_strict (dt : date) :
  valid_date dt = true -> strict_dmY (format_dmY dt).
Proof.
  intros Hv. apply valid_date_fields in Hv. destruct Hv as (Hy & Hm & Hd).
  pose proof (days_in_month_bounds (year dt) (month dt) Hm) as Hdim.
  unfold format_dmY, strict_dmY, four_digits.
  rewrite !pad2_digits by lia. do 8 eexists. split; [reflexivity|].
  repeat constructor; unfold ascii_digit; Z.div_mod_to_equations; lia.
Qed.

Lemma Birthday_format_dmY (dt : date) :
  valid_date dt = true -> Birthday (format_dmY dt) = Returned dt.
Proof.
  intros Hv. apply Birthday_returned_iff.
  pose proof (valid_date_fields dt Hv) as (Hy & Hm & Hd).
  pose proof (days_in_month_bounds (year dt) (month dt) Hm) as Hdim.
  exists (pad2 (day dt)), (pad2 (month dt)), (four_digits (year dt)).
  split; [reflexivity|].
  split; [apply day_text_pad2; lia|].
  split; [apply month_text_pad2; lia|].
  split; [apply year_text_four_digits; lia | exact Hv].
Qed.

(** C7, as stated, fails: a day and a month of one digit are read as
    well, though the text is not of the strict form. *)
Lemma Birthday_accepts_one_digit_day_and_month :
  Birthday (lit "1.2.2020") = Returned (mkdate 2020 2 1)
  /\ ~ strict_dmY (lit "1.2.2020").
Proof.
  split; [reflexivity|].
  intros (d1 & d2 & m1 & m2 & y1 & y2 & y3 & y4 & E & _).
  vm_compute in E. discriminate E.
Qed.

(** C7, amended: [Birthday(raw)] returns the date [dt] if and only if
    [raw] is a text of the day of [dt] (one or two digits, a leading zero
    or space allowed), a dot, a text of its month (one or two digits), a
    dot and the four digits of its year, with nothing before or after, and
    [dt] is a date of the calendar; every other text raises the
    [ValueError] of the class; and every date of the calendar written
    strictly as [DD.MM.YYYY] is read back with its year, month and day. *)
Theorem Birthday_accepts_iff_day_month_year_texts (raw : str) :
  (forall dt,
      Birthday raw = Returned dt
      <-> exists td tm ty,
            raw = td ++ dot :: tm ++ dot :: ty
            /\ day_text td (day dt) /\ month_text tm (month dt)
            /\ year_text ty (year dt)
            /\ valid_date dt = true)
  /\ ((exists dt, Birthday raw = Returned dt)
      \/ Birthday raw = Raised (ValueError InvalidDateFormat))
  /\ (forall dt, valid_date dt = true ->
        strict_dmY (format_dmY dt) /\ Birthday (format_dmY dt) = Returned dt).
Proof.
  split; [|split].
  - intros dt. apply Birthday_returned_iff.
  - apply Birthday_total.
  - intros dt Hv. split; [apply format_dmY_strict | apply Birthday_format_dmY];
      exact Hv.
Qed.

(** ** When the scan returns and when it does not *)

Lemma Birthday_valid (raw : str) (dt : date) :
  Birthday raw = Returned dt -> valid_date dt = true.
Proof.
  intros H. apply Birthday_returned_iff in H.
  destruct H as (_ & _ & _ & _ & _ & _ & _ & H). exact H.
Qed.

Lemma upcoming_step_returns (today : datetime) (user : ContactRecord)
      (b : date) (acc : list entry) :
  1000 <= year (dt_date today) <= 9999 ->
  birthday user = Some b ->
  valid_date b = true ->
  valid_date (mkdate (year (dt_date today)) (month b) (day b)) = true ->
  exists acc', upcoming_step today user acc = Returned acc'.
Proof.
  intros Hy Hb Hvb Hvo. unfold upcoming_step.
  rewrite Hb, (birthday_this_year_valid today b Hy Hvb).
  unfold new_date. rewrite Hvo. cbn [bind].
  destruct (shift_weekend_spec _ Hvo) as (c & Hc & _). rewrite Hc. cbn [bind].
  destruct ((0 <=? _) && _); eauto.
Qed.

(** The scan returns a list when every record has a birthday whose
    occurrence exists in the year of the clock. *)
Lemma get_upcoming_birthdays_returns (book : AddressBook) (today : datetime) :
  1000 <= year (dt_date today) <= 9999 ->
  (forall user, In user (dict_values book) ->
     exists b, birthday user = Some b /\ valid_date b = true
               /\ valid_date (mkdate (year (dt_date today)) (month b) (day b))
                  = true) ->
  exists res, get_upcoming_birthdays book today = Returned res.
Proof.
  intros Hy. unfold get_upcoming_birthdays. generalize (@nil entry).
  induction (dict_values book) as [|user rest IH]; intros acc Hall; simpl.
  - eauto.
  - destruct (Hall user (or_introl eq_refl)) as (b & Hb & Hvb & Hvo).
    destruct (upcoming_step_returns today user b acc Hy Hb Hvb Hvo)
      as (acc' & ->).
    cbn [bind]. apply IH. intros u Hu. apply Hall. right; exact Hu.
Qed.

(** The scan returns no list when some stored birthday has no occurrence
    in the year of the clock, as 29 February has none in a year that is
    not a leap year. *)
Lemma upcoming_loop_unbuildable (today : datetime)
      (users : list ContactRecord) :
  1000 <= year (dt_date today) <= 9999 ->
  (exists user b, In user users /\ birthday user = Some b
                  /\ valid_date b = true
                  /\ valid_date (mkdate (year (dt_date today)) (month b) (day b))
                     = false) ->
  forall acc res, upcoming_loop today users acc <> Returned res.
Proof.
  intros Hy (u & b & Hu & Hb & Hvb & Hvo).
  induction users as [|user rest IH]; [contradiction|].
  intros acc res. simpl. destruct Hu as [->|Hu].
  - unfold upcoming_step.
    rewrite Hb, (birthday_this_year_valid today b Hy Hvb).
    unfold new_date. rewrite Hvo. discriminate.
  - destruct (upcoming_step today user acc); cbn [bind];
      [apply IH, Hu | discriminate].
Qed.

(* ================================================================= *)
(** * More properties of the record *)

Lemma find_first_present (ps : list str) (v : str) :
  In v ps -> find_first ps v = VStr v.
Proof.
  induction ps as [|p ps IH]; simpl; [contradiction|].
  intros H. destruct (str_eqb p v) eqn:E.
  - apply str_eqb_eq in E. subst p. reflexivity.
  - apply str_eqb_neq in E. destruct H as [H|H]; [contradiction|]. auto.
Qed.

Lemma find_first_absent (ps : list str) (v : str) :
  ~ In v ps -> find_first ps v = VNone.
Proof.
  induction ps as [|p ps IH]; simpl; [reflexivity|].
  intros H. destruct (str_eqb p v) eqn:E.
  - apply str_eqb_eq in E. tauto.
  - apply IH. tauto.
Qed.

(** X1: [find_phone] gives back the value asked for when the record has a
    phone equal to it and [None] when it has none; it never changes the
    record and never raises. *)
Theorem find_phone_found_iff_present (r : ContactRecord) (v : str) :
  snd (find_phone v r) = r
  /\ (fst (find_phone v r) = Returned (VStr v) <-> In v (phones r))
  /\ (fst (find_phone v r) = Returned VNone <-> ~ In v (phones r)).
Proof.
  unfold find_phone; simpl. split; [reflexivity|].
  destruct (in_dec (list_eq_dec Z.eq_dec) v (phones r)) as [Hin|Hout].
  - rewrite (find_first_present _ _ Hin). split; split; intros H;
      auto; try discriminate; tauto.
  - rewrite (find_first_absent _ _ Hout). split; split; intros H;
      auto; try discriminate; tauto.
Qed.

(** X2: A phone that is added to a record that did not have it and then
    removed leaves the record as it was; between the two calls
    [find_phone] finds it. *)
Theorem add_phone_then_remove_phone (r : ContactRecord) (p : str)
        (Hvalid : _validate p = true) (Hnew : ~ In p (phones r)) :
  fst (add_phone p r) = Returned VNone
  /\ fst (find_phone p (snd (add_phone p r))) = Returned (VStr p)
  /\ snd (remove_phone p (snd (add_phone p r))) = r.
Proof.
  unfold add_phone. rewrite (Phone_valid _ Hvalid).
  unfold find_phone, remove_phone; simpl. repeat split.
  - rewrite find_first_present; [reflexivity|].
    apply in_or_app; right; left; reflexivity.
  - rewrite remove_first_present by exact Hnew. rewrite app_nil_r.
    apply record_eta.
Qed.

Lemma add_phone_then_remove_phone_witness :
  let r := mkRecord (lit "Ann") [lit "1111111111"] None in
  snd (remove_phone (lit "2222222222")
                    (snd (add_phone (lit "2222222222") r))) = r.
Proof.
  intros r.
  refine (proj2 (proj2 (add_phone_then_remove_phone
                          r (lit "2222222222") eq_refl _))).
  simpl. intros [E|[]]. discriminate E.
Defined.

(** X3: [add_phone] does not look for duplicates: a valid phone is put at the
    end even when the record has it already, so the record has one more
    copy of it and every earlier phone stays where it was; a phone that
    is not valid raises [ValueError] and leaves the record unchanged. *)
Theorem add_phone_appends_without_duplicate_check
        (r : ContactRecord) (p : str) :
  (_validate p = true ->
   phones (snd (add_phone p r)) = phones r ++ [p]
   /\ count_occ (list_eq_dec Z.eq_dec) (phones (snd (add_phone p r))) p
      = S (count_occ (list_eq_dec Z.eq_dec) (phones r) p)
   /\ name (snd (add_phone p r)) = name r
   /\ birthday (snd (add_phone p r)) = birthday r)
  /\ (_validate p = false ->
      add_phone p r = (Raised (ValueError PhoneDigits), r)).
Proof.
  unfold add_phone, Phone. split; intros ->; simpl; auto.
  repeat split.
  rewrite count_occ_app, (count_occ_cons_eq _ _ (eq_refl p)).
  cbn [count_occ]. apply Nat.add_1_r.
Qed.

Lemma edit_first_length (ps : list str) (old new : str) :
  List.length (edit_first ps old new) = List.length ps.
Proof.
  induction ps as [|p ps IH]; simpl; auto.
  destruct (str_eqb p old); simpl; auto.
Qed.

Lemma remove_first_length (ps : list str) (v : str) :
  In v ps -> S (List.length (remove_first ps v)) = List.length ps.
Proof.
  induction ps as [|p ps IH]; simpl; [contradiction|].
  intros H. destruct (str_eqb p v) eqn:E; simpl; auto.
  apply str_eqb_neq in E. destruct H as [H|H]; [contradiction|].
  rewrite IH; auto.
Qed.

(** X4: [edit_phone] never changes the number of phones; when a phone equals
    the old value, the new value can be found afterwards, whether it is a
    valid phone or not; and giving the old value as the new one changes
    nothing. *)
Theorem edit_phone_keeps_length (r : ContactRecord) (old new : str) :
  List.length (phones (snd (edit_phone old new r))) = List.length (phones r)
  /\ (In old (phones r) ->
      fst (find_phone new (snd (edit_phone old new r))) = Returned (VStr new))
  /\ snd (edit_phone old old r) = r.
Proof.
  unfold edit_phone, find_phone; simpl. split; [|split].
  - apply edit_first_length.
  - intros H. destruct (first_occurrence _ _ H) as (l1 & l2 & E & Hn).
    rewrite E, edit_first_present by exact Hn.
    rewrite find_first_present; [reflexivity|].
    apply in_or_app; right; left; reflexivity.
  - destruct (in_dec (list_eq_dec Z.eq_dec) old (phones r)) as [H|H].
    + destruct (first_occurrence _ _ H) as (l1 & l2 & E & Hn).
      rewrite E, edit_first_present by exact Hn. rewrite <- E.
      apply record_eta.
    + rewrite edit_first_absent by exact H. apply record_eta.
Qed.

(** [remove_phone] takes away exactly one phone when the value is there,
    and what it leaves are phones the record had. *)
Theorem remove_phone_takes_one (r : ContactRecord) (v : str) :
  (In v (phones r) ->
   S (List.length (phones (snd (remove_phone v r)))) = List.length (phones r))
  /\ (forall p, In p (phones (snd (remove_phone v r))) -> In p (phones r)).
Proof.
  unfold remove_phone; simpl. split.
  - apply remove_first_length.
  - induction (phones r) as [|q ps IH]; simpl; [tauto|].
    intros p. destruct (str_eqb q v); simpl; [tauto|].
    intros [H|H]; auto.
Qed.

Lemma edit_first_In (ps : list str) (old new p : str) :
  In p (edit_first ps old new) -> p = new \/ In p ps.
Proof.
  induction ps as [|q ps IH]; simpl; [tauto|].
  destruct (str_eqb q old); simpl; intros [H|H]; auto.
  destruct (IH H); auto.
Qed.

(** X5: The phones of a record stay valid under [add_phone], which rejects
    the others, and under [remove_phone]; under [edit_phone], which
    assigns the new value as it comes, they stay valid exactly when the
    new value is valid, once a phone equals the old one. *)
Theorem phones_valid_kept (r : ContactRecord) (p old new : str)
        (Hr : phones_valid r) :
  phones_valid (snd (add_phone p r))
  /\ phones_valid (snd (remove_phone p r))
  /\ (In old (phones r) ->
      (phones_valid (snd (edit_phone old new r)) <-> _validate new = true))
  /\ (~ In old (phones r) -> phones_valid (snd (edit_phone old new r))).
Proof.
  unfold phones_valid in *. rewrite Forall_forall in Hr.
  split; [|split; [|split]].
  - unfold add_phone, Phone. destruct (_validate p) eqn:E; simpl.
    + apply Forall_forall. intros q Hq. apply in_app_or in Hq.
      destruct Hq as [Hq|[<-|[]]]; auto.
    + apply Forall_forall. exact Hr.
  - apply Forall_forall. intros q Hq. apply Hr.
    apply (proj2 (remove_phone_takes_one r p)), Hq.
  - intros Hin. unfold edit_phone; simpl. rewrite Forall_forall. split.
    + intros H. apply H.
      destruct (first_occurrence _ _ Hin) as (l1 & l2 & E & Hn).
      rewrite E, edit_first_present by exact Hn.
      apply in_or_app; right; left; reflexivity.
    + intros Hv q Hq. destruct (edit_first_In _ _ _ _ Hq) as [->|Hq']; auto.
  - intros Hout. unfold edit_phone; simpl.
    rewrite edit_first_absent by exact Hout. apply Forall_forall. exact Hr.
Qed.

Lemma phones_valid_kept_witness :
  let r := mkRecord (lit "Ann") [lit "1111111111"] None in
  phones_valid r
  /\ ~ phones_valid (snd (edit_phone (lit "1111111111") (lit "home") r)).
Proof.
  intros r.
  assert (Hr : phones_valid r).
  { repeat constructor. }
  split; [exact Hr|].
  destruct (phones_valid_kept r (lit "1111111111") (lit "1111111111")
                              (lit "home") Hr) as (_ & _ & H & _).
  intros Hbad. apply H in Hbad; [discriminate Hbad | left; reflexivity].
Defined.

(** X6: [Record.add_birthday] replaces the birthday: after two calls only the
    date of the second is stored, whatever the first text was, and it is
    a date of the calendar; the name and the phones are kept.  A text
    that [Birthday] does not read raises [ValueError] and leaves the
    record unchanged. *)
Theorem record_add_birthday_overwrites
        (r : ContactRecord) (b1 b2 : str) (d2 : date)
        (H2 : Birthday b2 = Returned d2) :
  snd (record_add_birthday b2 (snd (record_add_birthday b1 r)))
  = mkRecord (name r) (phones r) (Some d2)
  /\ valid_date d2 = true
  /\ (forall b, (forall d, Birthday b <> Returned d) ->
        record_add_birthday b r = (Raised (ValueError InvalidDateFormat), r)).
Proof.
  split; [|split].
  - unfold record_add_birthday. rewrite H2.
    destruct (Birthday b1); simpl; reflexivity.
  - apply (Birthday_valid _ _ H2).
  - intros b Hb. unfold record_add_birthday.
    destruct (Birthday_total b) as [(d & Hd)|Hd]; [destruct (Hb d Hd)|].
    rewrite Hd. reflexivity.
Qed.

Lemma record_add_birthday_overwrites_witness :
  let r := mkRecord (lit "Ann") [lit "1111111111"] None in
  Birthday (lit "24.12.1991") = Returned (mkdate 1991 12 24)
  /\ snd (record_add_birthday (lit "24.12.1991")
            (snd (record_add_birthday (lit "01.02.1990") r)))
     = mkRecord (lit "Ann") [lit "1111111111"] (Some (mkdate 1991 12 24)).
Proof.
  intros r. split; [reflexivity|].
  exact (proj1 (record_add_birthday_overwrites
                  r (lit "01.02.1990") (lit "24.12.1991")
                  (mkdate 1991 12 24) eq_refl)).
Defined.

(* ================================================================= *)
(** * More properties of the directory *)

Lemma dict_get_None_iff (data : AddressBook) (k : str) :
  dict_get data k = None <-> ~ In k (map fst data).
Proof.
  induction data as [|[k0 v] rest IH]; simpl; [tauto|].
  destruct (str_eqb k0 k) eqn:E.
  - apply str_eqb_eq in E. split; [discriminate | tauto].
  - apply str_eqb_neq in E. rewrite IH. tauto.
Qed.

Lemma dict_get_In (data : AddressBook) (k : str) (v : ContactRecord) :
  dict_get data k = Some v -> In (k, v) data.
Proof.
  induction data as [|[k0 w] rest IH]; simpl; [discriminate|].
  destruct (str_eqb k0 k) eqn:E.
  - apply str_eqb_eq in E. intros [= ->]. left; congruence.
  - auto.
Qed.

Lemma dict_set_absent (data : AddressBook) (k : str) (v : ContactRecord) :
  dict_get data k = None -> dict_set data k v = data ++ [(k, v)].
Proof.
  induction data as [|[k0 w] rest IH]; simpl; [reflexivity|].
  destruct (str_eqb k0 k); [discriminate|].
  intros H. rewrite IH; auto.
Qed.

Lemma dict_set_In (data : AddressBook) (k : str) (v : ContactRecord)
      (kv : str * ContactRecord) :
  In kv (dict_set data k v) -> kv = (k, v) \/ In kv data.
Proof.
  induction data as [|[k0 w] rest IH]; simpl.
  - intros [<-|[]]; auto.
  - destruct (str_eqb k0 k) eqn:E; simpl.
    + apply str_eqb_eq in E. subst k0. intros [<-|H]; auto.
    + intros [<-|H]; auto. destruct (IH H); auto.
Qed.

Lemma dict_set_NoDup (data : AddressBook) (k : str) (v : ContactRecord) :
  NoDup (map fst data) -> NoDup (map fst (dict_set data k v)).
Proof.
  intros H. rewrite dict_set_keys.
  destruct (dict_get data k) eqn:E; [exact H|].
  apply dict_get_None_iff in E.
  apply NoDup_app; [exact H | repeat constructor; simpl; tauto |].
  intros x Hx [<-|[]]. contradiction.
Qed.

Lemma dict_del_None_iff (data : AddressBook) (k : str) :
  dict_del data k = None <-> dict_get data k = None.
Proof.
  induction data as [|[k0 w] rest IH]; simpl; [tauto|].
  destruct (str_eqb k0 k); [split; discriminate|].
  destruct (dict_del rest k); rewrite <- IH; split; congruence.
Qed.

Lemma dict_del_In (data data' : AddressBook) (k : str) :
  dict_del data k = Some data' ->
  forall kv, In kv data' -> In kv data.
Proof.
  revert data'. induction data as [|[k0 w] rest IH]; simpl; [discriminate|].
  intros data'. destruct (str_eqb k0 k).
  - intros [= <-] kv H. auto.
  - destruct (dict_del rest k) as [rest'|]; [|discriminate].
    intros [= <-] kv [H|H]; auto. right. apply (IH rest'); auto.
Qed.

Lemma dict_del_get_other (data data' : AddressBook) (k k' : str) :
  dict_del data k = Some data' -> k' <> k ->
  dict_get data' k' = dict_get data k'.
Proof.
  revert data'. induction data as [|[k0 w] rest IH]; simpl; [discriminate|].
  intros data'. destruct (str_eqb k0 k) eqn:E.
  - apply str_eqb_eq in E. subst k0. intros [= <-] Hne.
    assert (str_eqb k k' = false) as -> by (apply str_eqb_neq; congruence).
    reflexivity.
  - destruct (dict_del rest k) as [rest'|]; [|discriminate].
    intros [= <-] Hne. simpl. destruct (str_eqb k0 k'); auto.
Qed.

Lemma dict_del_keys (data data' : AddressBook) (k : str) :
  dict_del data k = Some data' ->
  NoDup (map fst data) ->
  NoDup (map fst data') /\ ~ In k (map fst data').
Proof.
  revert data'. induction data as [|[k0 w] rest IH]; simpl; [discriminate|].
  intros data'. destruct (str_eqb k0 k) eqn:E.
  - apply str_eqb_eq in E. subst k0. intros [= <-] H.
    inversion H; subst. auto.
  - apply str_eqb_neq in E.
    destruct (dict_del rest k) as [rest'|] eqn:Ed; [|discriminate].
    intros [= <-] H. inversion H as [|x l Hx Hl]; subst.
    destruct (IH rest' eq_refl Hl) as (Hnd & Hk). simpl. split.
    + constructor; [|exact Hnd]. intros Hin. apply Hx.
      apply in_map_iff in Hin. destruct Hin as (kv & Hf & Hkv).
      apply in_map_iff. exists kv. split; [exact Hf|].
      apply (dict_del_In _ _ _ Ed), Hkv.
    + intros [H0|H0]; [congruence | tauto].
Qed.

Lemma find_absent (book : AddressBook) (n : str) :
  dict_get book n = None -> find book n = VStr contact_not_found.
Proof. unfold find. intros ->. reflexivity. Qed.

(** X7: [delete] raises [KeyError] and changes nothing when the name is not
    in the directory; when it is, the name cannot be found afterwards,
    every other name is found as before and no name appears twice. *)
Theorem delete_removes_the_name (book : AddressBook) (n : str)
        (Hkeys : NoDup (map fst book)) :
  (dict_get book n = None -> delete n book = (Raised KeyError, book))
  /\ (forall r, dict_get book n = Some r ->
        exists book',
          delete n book = (Returned VNone, book')
          /\ find book' n = VStr contact_not_found
          /\ (forall n', n' <> n -> find book' n' = find book n')
          /\ NoDup (map fst book')).
Proof.
  unfold delete. split.
  - intros H. apply dict_del_None_iff in H. rewrite H. reflexivity.
  - intros r Hr. destruct (dict_del book n) as [book'|] eqn:E.
    + destruct (dict_del_keys _ _ _ E Hkeys) as (Hnd & Hout).
      exists book'. split; [reflexivity|]. split; [|split].
      * apply find_absent, dict_get_None_iff, Hout.
      * intros n' Hne. unfold find.
        rewrite (dict_del_get_other _ _ _ _ E Hne). reflexivity.
      * exact Hnd.
    + apply dict_del_None_iff in E. congruence.
Qed.

Lemma delete_removes_the_name_witness :
  let ann := mkRecord (lit "Ann") [lit "1111111111"] None in
  let bob := mkRecord (lit "Bob") [lit "2222222222"] None in
  NoDup (map fst [(lit "Ann", ann); (lit "Bob", bob)])
  /\ delete (lit "Eve") [(lit "Ann", ann); (lit "Bob", bob)]
     = (Raised KeyError, [(lit "Ann", ann); (lit "Bob", bob)]).
Proof.
  intros ann bob.
  assert (Hk : NoDup (map fst [(lit "Ann", ann); (lit "Bob", bob)])).
  { repeat constructor; simpl; intros H;
      repeat (destruct H as [H|H]; [discriminate H|]); exact H. }
  split; [exact Hk|].
  exact (proj1 (delete_removes_the_name
                  [(lit "Ann", ann); (lit "Bob", bob)] (lit "Eve") Hk)
               eq_refl).
Defined.

Lemma dict_del_last (data : AddressBook) (k : str) (v : ContactRecord) :
  dict_get data k = None -> dict_del (data ++ [(k, v)]) k = Some data.
Proof.
  induction data as [|[k0 w] rest IH]; simpl.
  - now rewrite str_eqb_refl.
  - destruct (str_eqb k0 k); [discriminate|].
    intros H. rewrite IH; auto.
Qed.

Lemma add_record_valid
      (book : AddressBook) (n p : str) :
  _validate p = true ->
  add_record [n; p] book
  = (Returned (VStr (lit "Contact " ++ n ++ lit " was added.")),
     dict_set book n (mkRecord n [p] None)).
Proof.
  intros Hp. unfold add_record, input_error, add_record_body, add_phone.
  simpl. rewrite (Phone_valid _ Hp). reflexivity.
Qed.

(** X8: A contact that is added under a name the directory did not have and
    then deleted leaves the directory as it was. *)
Theorem add_record_then_delete (book : AddressBook) (n p : str)
        (Hp : _validate p = true) (Hnew : dict_get book n = None) :
  delete n (snd (add_record [n; p] book)) = (Returned VNone, book).
Proof.
  rewrite (add_record_valid book n p Hp).
  cbn [snd]. unfold delete.
  rewrite (dict_set_absent _ _ _ Hnew), (dict_del_last _ _ _ Hnew).
  reflexivity.
Qed.

Lemma add_record_then_delete_witness :
  let ann := mkRecord (lit "Ann") [lit "1111111111"] None in
  delete (lit "Bob")
         (snd (add_record [lit "Bob"; lit "2222222222"] [(lit "Ann", ann)]))
  = (Returned VNone, [(lit "Ann", ann)]).
Proof.
  intros ann.
  exact (add_record_then_delete [(lit "Ann", ann)] (lit "Bob")
                                (lit "2222222222") eq_refl eq_refl).
Defined.

(** X9: [add_record] with fewer than two arguments answers that the number
    of arguments is wrong, and with a phone that is not valid that the
    values are wrong; in both cases the directory is unchanged, so a
    contact of that name that was there is kept.  Arguments after the
    second are not looked at. *)
Theorem add_record_rejects_without_change (args : list str)
        (book : AddressBook) :
  ((List.length args < 2)%nat ->
   add_record args book = (Returned (VStr invalid_number_of_arguments), book))
  /\ (forall n p rest, args = n :: p :: rest -> _validate p = false ->
        add_record args book = (Returned (VStr give_me_correct_values), book))
  /\ (forall n p rest, args = n :: p :: rest ->
        add_record args book = add_record [n; p] book).
Proof.
  unfold add_record, input_error, add_record_body, add_phone, Phone.
  split; [|split].
  - destruct args as [|a [|b rest]]; simpl; intros H; try lia; reflexivity.
  - intros n p rest -> Hp. simpl. rewrite Hp. reflexivity.
  - intros n p rest ->. reflexivity.
Qed.

Lemma add_birthday_found (book : AddressBook) (n b : str)
      (r : ContactRecord) (d : date) :
  dict_get book n = Some r -> Birthday b = Returned d ->
  add_birthday [n; b] book
  = (Returned (VStr (lit "Birthday " ++ b
                     ++ lit " was added to contact " ++ n ++ lit ".")),
     dict_set book n (mkRecord (name r) (phones r) (Some d))).
Proof.
  intros H Hb.
  unfold add_birthday, input_error, add_birthday_body, find,
    record_add_birthday.
  rewrite H, Hb. reflexivity.
Qed.

(** X10: What [add_birthday] answers.  A name that is not in the directory
    gets the text of [find], whatever the date text is; a date text that
    [Birthday] does not read, or a number of arguments other than two,
    gets the text for wrong values; in these cases the directory is
    unchanged.  Otherwise the record of the name gets the date, keeps its
    name and phones, and the confirmation is returned. *)
Theorem add_birthday_outcomes (args : list str) (book : AddressBook) :
  (forall n b, args = [n; b] -> dict_get book n = None ->
     add_birthday args book = (Returned (VStr contact_not_found), book))
  /\ (forall n b r d, args = [n; b] -> dict_get book n = Some r ->
        Birthday b = Returned d ->
        add_birthday args book
        = (Returned (VStr (lit "Birthday " ++ b
                           ++ lit " was added to contact " ++ n ++ lit ".")),
           dict_set book n (mkRecord (name r) (phones r) (Some d))))
  /\ (forall n b r, args = [n; b] -> dict_get book n = Some r ->
        (forall d, Birthday b <> Returned d) ->
        add_birthday args book
        = (Returned (VStr give_me_correct_values), book))
  /\ (List.length args <> 2%nat ->
      add_birthday args book = (Returned (VStr give_me_correct_values), book)).
Proof.
  unfold add_birthday, input_error, add_birthday_body, find,
    record_add_birthday.
  split; [|split; [|split]].
  - intros n b -> H. rewrite H. reflexivity.
  - intros n b r d -> H Hb. rewrite H, Hb. reflexivity.
  - intros n b r -> H Hb. rewrite H.
    destruct (Birthday_total b) as [(d & Hd)|Hd]; [destruct (Hb d Hd)|].
    rewrite Hd. reflexivity.
  - destruct args as [|a [|b [|c rest]]]; simpl; intros H;
      try reflexivity; congruence.
Qed.

Lemma show_birthday_found (book : AddressBook) (n : str) (r : ContactRecord) :
  dict_get book n = Some r ->
  show_birthday [n] book
  = (match birthday r with
     | Some b => Returned (VBirthday b)
     | None => Returned VNone
     end, book).
Proof.
  intros H. unfold show_birthday, input_error, show_birthday_body, find.
  simpl. rewrite H. simpl. destruct (birthday r); reflexivity.
Qed.

(** X11: A contact that has just been added has no birthday to show; once
    [add_birthday] has read a date for it, [show_birthday] shows that
    date and the record has kept its phone; after a second
    [add_birthday] only the second date is shown. *)
Theorem add_birthday_then_show_birthday
        (book : AddressBook) (n p b b' : str) (d d' : date)
        (Hp : _validate p = true)
        (Hb : Birthday b = Returned d)
        (Hb' : Birthday b' = Returned d') :
  let book1 := snd (add_record [n; p] book) in
  let book2 := snd (add_birthday [n; b] book1) in
  let book3 := snd (add_birthday [n; b'] book2) in
  fst (show_birthday [n] book1) = Returned VNone
  /\ fst (show_birthday [n] book2) = Returned (VBirthday d)
  /\ find book2 n = VRecord (mkRecord n [p] (Some d))
  /\ fst (show_birthday [n] book3) = Returned (VBirthday d')
  /\ find book3 n = VRecord (mkRecord n [p] (Some d')).
Proof.
  intros book1 book2 book3.
  assert (E1 : dict_get book1 n = Some (mkRecord n [p] None)).
  { subst book1. rewrite (add_record_valid book n p Hp).
    apply dict_get_set_same. }
  assert (E2 : dict_get book2 n = Some (mkRecord n [p] (Some d))).
  { subst book2.
    rewrite (add_birthday_found book1 n b _ d E1 Hb).
    apply dict_get_set_same. }
  assert (E3 : dict_get book3 n = Some (mkRecord n [p] (Some d'))).
  { subst book3.
    rewrite (add_birthday_found book2 n b' _ d' E2 Hb').
    apply dict_get_set_same. }
  rewrite (show_birthday_found _ _ _ E1), (show_birthday_found _ _ _ E2),
    (show_birthday_found _ _ _ E3).
  unfold find. rewrite E2, E3. repeat split.
Qed.

Lemma add_birthday_then_show_birthday_witness :
  let book1 := snd (add_record [lit "Bob"; lit "1234567890"] []) in
  let book2 := snd (add_birthday [lit "Bob"; lit "12.06.1990"] book1) in
  let book3 := snd (add_birthday [lit "Bob"; lit "1.7.1991"] book2) in
  fst (show_birthday [lit "Bob"] book2) = Returned (VBirthday (mkdate 1990 6 12))
  /\ fst (show_birthday [lit "Bob"] book3)
     = Returned (VBirthday (mkdate 1991 7 1)).
Proof.
  intros book1 book2 book3.
  destruct (add_birthday_then_show_birthday
              [] (lit "Bob") (lit "1234567890") (lit "12.06.1990")
              (lit "1.7.1991") (mkdate 1990 6 12) (mkdate 1991 7 1)
              eq_refl eq_refl eq_refl) as (_ & H2 & _ & H3 & _).
  split; [exact H2 | exact H3].
Defined.

(** X12: What [change_record] does.  A name that is not in the directory gets
    the text of [find] and a number of arguments other than three gets
    the text for wrong values, the directory unchanged.  For a contact
    that has a phone equal to the old one, the first such phone becomes
    the new value, which is not validated, and the record keeps its name,
    its birthday and its other phones.  No other contact is touched. *)
Theorem change_record_outcomes (args : list str) (book : AddressBook) :
  (forall n old new, args = [n; old; new] -> dict_get book n = None ->
     change_record args book = (Returned (VStr contact_not_found), book))
  /\ (List.length args <> 3%nat ->
      change_record args book = (Returned (VStr give_me_correct_values), book))
  /\ (forall n old new r l1 l2,
        args = [n; old; new] -> dict_get book n = Some r ->
        phones r = l1 ++ old :: l2 -> ~ In old l1 ->
        find (snd (change_record args book)) n
        = VRecord (mkRecord (name r) (l1 ++ new :: l2) (birthday r)))
  /\ (forall n old new n', args = [n; old; new] -> n' <> n ->
        find (snd (change_record args book)) n' = find book n').
Proof.
  split; [|split; [|split]].
  - intros n old new -> H.
    unfold change_record, input_error, change_record_body, find.
    rewrite H. reflexivity.
  - unfold change_record, input_error, change_record_body.
    destruct args as [|a [|b [|c [|e rest]]]]; simpl; intros H;
      try reflexivity; congruence.
  - intros n old new r l1 l2 -> H E Hn.
    rewrite (change_record_found _ _ _ _ _ H). cbn [snd].
    unfold find. rewrite dict_get_set_same. unfold edit_phone. cbn [snd].
    rewrite E, edit_first_present by exact Hn. reflexivity.
  - intros n old new n' -> Hne.
    destruct (dict_get book n) as [r|] eqn:H.
    + rewrite (change_record_found _ _ _ _ _ H). cbn [snd].
      unfold find. rewrite dict_get_set_other by exact Hne. reflexivity.
    + unfold change_record, input_error, change_record_body, find.
      rewrite H. reflexivity.
Qed.

Lemma add_record_answers (args : list str) (book : AddressBook) :
  exists msg, fst (add_record args book) = Returned (VStr msg).
Proof.
  unfold add_record, input_error, add_record_body, add_phone, Phone.
  destruct args as [|a [|b rest]]; simpl; eauto.
  destruct (_validate b); simpl; eauto.
Qed.

Lemma change_record_answers (args : list str) (book : AddressBook) :
  exists msg, fst (change_record args book) = Returned (VStr msg).
Proof.
  unfold change_record, input_error, change_record_body, find.
  destruct args as [|a [|b [|c [|e rest]]]]; simpl; eauto.
  destruct (dict_get book a); simpl; eauto.
Qed.

Lemma add_birthday_answers (args : list str) (book : AddressBook) :
  exists msg, fst (add_birthday args book) = Returned (VStr msg).
Proof.
  unfold add_birthday, input_error, add_birthday_body, find,
    record_add_birthday.
  destruct args as [|a [|b [|c rest]]]; simpl; eauto.
  destruct (dict_get book a); simpl; eauto.
  destruct (Birthday_total b) as [(d & Hd)|Hd]; rewrite Hd; simpl; eauto.
Qed.

(** X13: [add_record], [change_record] and [add_birthday] never raise: for
    every list of arguments and every directory they return a text. *)
Theorem commands_always_answer (args : list str) (book : AddressBook) :
  (exists msg, fst (add_record args book) = Returned (VStr msg))
  /\ (exists msg, fst (change_record args book) = Returned (VStr msg))
  /\ (exists msg, fst (add_birthday args book) = Returned (VStr msg)).
Proof.
  split; [|split].
  - apply add_record_answers.
  - apply change_record_answers.
  - apply add_birthday_answers.
Qed.

(** ** The invariant of the directory *)

Lemma book_wf_name (book : AddressBook) (n : str) (r : ContactRecord) :
  book_wf book -> dict_get book n = Some r ->
  name r = n /\ (forall b, birthday r = Some b -> valid_date b = true).
Proof.
  intros (_ & Hn & Hb) H. apply dict_get_In in H. split.
  - rewrite Forall_forall in Hn. apply (Hn _ H).
  - intros b E. apply (Hb r b); [|exact E].
    unfold dict_values. apply in_map_iff. exists (n, r). auto.
Qed.

Lemma book_wf_set (book : AddressBook) (k : str) (v : ContactRecord) :
  book_wf book -> name v = k ->
  (forall b, birthday v = Some b -> valid_date b = true) ->
  book_wf (dict_set book k v).
Proof.
  intros (Hk & Hn & Hb) Hv Hvb. split; [|split].
  - apply dict_set_NoDup, Hk.
  - rewrite Forall_forall in *. intros kv Hkv.
    destruct (dict_set_In _ _ _ _ Hkv) as [->|Hin]; auto.
  - intros user b Hu E. unfold dict_values in Hu.
    apply in_map_iff in Hu. destruct Hu as (kv & <- & Hkv).
    destruct (dict_set_In _ _ _ _ Hkv) as [->|Hin].
    + apply Hvb, E.
    + apply (Hb (snd kv) b); [|exact E].
      unfold dict_values. apply in_map_iff. eauto.
Qed.

Lemma book_wf_del (book book' : AddressBook) (k : str) :
  book_wf book -> dict_del book k = Some book' -> book_wf book'.
Proof.
  intros (Hk & Hn & Hb) E. split; [|split].
  - apply (dict_del_keys _ _ _ E Hk).
  - rewrite Forall_forall in *. intros kv Hkv.
    apply Hn, (dict_del_In _ _ _ E), Hkv.
  - intros user b Hu Eb. unfold dict_values in Hu.
    apply in_map_iff in Hu. destruct Hu as (kv & <- & Hkv).
    apply (Hb (snd kv) b); [|exact Eb].
    unfold dict_values. apply in_map_iff. exists kv. split; [reflexivity|].
    apply (dict_del_In _ _ _ E), Hkv.
Qed.

(** X14: The four operations that change the directory keep its invariant,
    whatever their arguments: no name twice, every record stored under
    its own name, every stored birthday a date of the calendar.  The
    empty directory has it. *)
Theorem directory_invariant_kept
        (book : AddressBook) (args : list str) (n : str)
        (Hbook : book_wf book) :
  book_wf (snd (add_record args book))
  /\ book_wf (snd (change_record args book))
  /\ book_wf (snd (add_birthday args book))
  /\ book_wf (snd (delete n book))
  /\ book_wf [].
Proof.
  split; [|split; [|split; [|split]]].
  - unfold add_record, input_error, add_record_body, add_phone, Phone.
    destruct args as [|a [|b rest]]; simpl; auto.
    destruct (_validate b); simpl; auto.
    apply book_wf_set; auto. discriminate.
  - unfold change_record, input_error, change_record_body, find.
    destruct args as [|a [|b [|c [|e rest]]]]; simpl; auto.
    destruct (dict_get book a) as [r|] eqn:E; simpl; auto.
    destruct (book_wf_name _ _ _ Hbook E) as (Hn & Hb).
    apply book_wf_set; auto.
  - unfold add_birthday, input_error, add_birthday_body, find,
      record_add_birthday.
    destruct args as [|a [|b [|c rest]]]; simpl; auto.
    destruct (dict_get book a) as [r|] eqn:E; simpl; auto.
    destruct (book_wf_name _ _ _ Hbook E) as (Hn & Hb).
    destruct (Birthday b) as [d|e] eqn:Ed; simpl.
    + apply book_wf_set; auto. simpl. intros b0 [= <-].
      apply (Birthday_valid _ _ Ed).
    + destruct e as [m| | | |]; simpl; auto.
  - unfold delete. destruct (dict_del book n) as [book'|] eqn:E; simpl; auto.
    apply (book_wf_del _ _ _ Hbook E).
  - split; [constructor|]. split; [constructor|].
    intros user b [].
Qed.

Lemma directory_invariant_kept_witness :
  book_wf []
  /\ book_wf (snd (add_birthday [lit "Bob"; lit "12.06.1990"]
                     (snd (add_record [lit "Bob"; lit "1234567890"] [])))).
Proof.
  assert (H0 : book_wf []).
  { split; [constructor|]. split; [constructor|]. intros user b []. }
  split; [exact H0|].
  pose proof (proj1 (directory_invariant_kept
                       [] [lit "Bob"; lit "1234567890"] [] H0)) as H1.
  exact (proj1 (proj2 (proj2 (directory_invariant_kept
                                _ [lit "Bob"; lit "12.06.1990"] [] H1)))).
Defined.

(* ================================================================= *)
(** * More properties of the scan *)

Lemma strptime_returned (s : str) (fmt : list directive) (occ : datetime) :
  strptime s fmt = Returned occ ->
  exists o, occ = midnight o /\ valid_date o = true.
Proof.
  unfold strptime.
  destruct (re_match fmt (1900, 1, 1) s) as [|[[[y m] d] [|c rest]] tl];
    try discriminate.
  destruct (new_date y m d) as [dd|e] eqn:E; [|discriminate].
  cbn [bind]. intros [= <-]. apply new_date_returned in E.
  exists dd. tauto.
Qed.

Lemma strptime_raised (s : str) (fmt : list directive) (e : exn) :
  strptime s fmt = Raised e -> exists m, e = ValueError m.
Proof.
  unfold strptime, new_date.
  destruct (re_match fmt (1900, 1, 1) s) as [|[[[y m] d] [|c rest]] tl].
  - intros [= <-]. eauto.
  - destruct (valid_date (mkdate y m d)); cbn [bind];
      [discriminate | intros [= <-]; eauto].
  - intros [= <-]. eauto.
Qed.

(** A step of the scan raises for two reasons only: the record has no
    birthday, or the occurrence cannot be built. *)
Lemma upcoming_step_raised (today : datetime) (user : ContactRecord)
      (acc : list entry) (e : exn) :
  upcoming_step today user acc = Raised e ->
  (e = AttributeError /\ birthday user = None)
  \/ (exists m, e = ValueError m).
Proof.
  unfold upcoming_step, birthday_this_year.
  destruct (birthday user) as [b|]; [|intros [= <-]; auto].
  destruct (strptime (this_year_text today b) fmt_Ymd) as [occ|e'] eqn:E.
  - cbn [bind]. destruct (strptime_returned _ _ _ E) as (o & -> & Hv).
    destruct (shift_weekend_spec o Hv) as (c & Hc & _). rewrite Hc.
    cbn [bind]. destruct ((0 <=? _) && _); discriminate.
  - cbn [bind]. intros [= <-]. right. apply (strptime_raised _ _ _ E).
Qed.

Lemma upcoming_loop_raised (today : datetime) (users : list ContactRecord) :
  forall acc e,
    upcoming_loop today users acc = Raised e ->
    (e = AttributeError /\ exists user, In user users /\ birthday user = None)
    \/ (exists m, e = ValueError m).
Proof.
  induction users as [|user rest IH]; intros acc e; simpl; [discriminate|].
  destruct (upcoming_step today user acc) as [acc'|e'] eqn:Es; cbn [bind].
  - intros H. destruct (IH _ _ H) as [(-> & u & Hu & Hb)|Hv]; auto.
    left. split; [reflexivity|]. exists u. auto.
  - intros [= <-]. destruct (upcoming_step_raised _ _ _ _ Es)
      as [(-> & Hb)|Hv]; auto.
    left. split; [reflexivity|]. exists user. auto.
Qed.

Lemma birthdays_cases (today : datetime) (book : AddressBook) :
  snd (birthdays today book) = book
  /\ ((exists msg, fst (birthdays today book) = Returned (VStr msg))
      \/ (fst (birthdays today book) = Raised AttributeError
          /\ exists user, In user (dict_values book) /\ birthday user = None)).
Proof.
  unfold birthdays, input_error, birthdays_body, get_upcoming_birthdays.
  destruct (upcoming_loop today (dict_values book) []) as [res|e] eqn:E.
  - destruct res; simpl; eauto.
  - destruct (upcoming_loop_raised _ _ _ _ E) as [(-> & Hu)|(m & ->)];
      simpl; eauto.
Qed.

(** X15: [birthdays] never changes the directory.  It returns a text or raises
    [AttributeError], and it raises only when some record has no
    birthday: with a birthday in every record it returns a text whatever
    the clock shows. *)
Theorem birthdays_raises_only_for_unset_birthday
        (today : datetime) (book : AddressBook) :
  snd (birthdays today book) = book
  /\ ((exists msg, fst (birthdays today book) = Returned (VStr msg))
      \/ (fst (birthdays today book) = Raised AttributeError
          /\ exists user, In user (dict_values book) /\ birthday user = None))
  /\ ((forall user, In user (dict_values book) -> birthday user <> None) ->
      exists msg, fst (birthdays today book) = Returned (VStr msg)).
Proof.
  pose proof (birthdays_cases today book) as H.
  destruct H as (H1 & H2). split; [exact H1|]. split; [exact H2|].
  intros Hall. destruct H2 as [H2|(_ & u & Hu & Hb)]; [exact H2|].
  destruct (Hall u Hu Hb).
Qed.

Lemma upcoming_step_acc (today : datetime) (user : ContactRecord)
      (acc : list entry) :
  upcoming_step today user acc
  = match upcoming_step today user [] with
    | Returned l => Returned (acc ++ l)
    | Raised e => Raised e
    end.
Proof.
  unfold upcoming_step. destruct (birthday user) as [b|]; [|reflexivity].
  destruct (birthday_this_year today b) as [occ|]; [|reflexivity].
  cbn [bind]. destruct ((0 <=? _) && _).
  - destruct (shift_weekend occ); reflexivity.
  - rewrite app_nil_r. reflexivity.
Qed.

Lemma contribution_at_most_one (today : datetime) (user : ContactRecord) :
  (List.length (contribution today user) <= 1)%nat.
Proof.
  unfold contribution, upcoming_step.
  destruct (birthday user) as [b|]; [|simpl; lia].
  destruct (birthday_this_year today b) as [occ|]; [|simpl; lia].
  cbn [bind]. destruct ((0 <=? _) && _); [|simpl; lia].
  destruct (shift_weekend occ); simpl; lia.
Qed.

Lemma upcoming_loop_flat_map (today : datetime) (users : list ContactRecord) :
  forall acc res,
    upcoming_loop today users acc = Returned res ->
    res = acc ++ flat_map (contribution today) users.
Proof.
  induction users as [|user rest IH]; intros acc res; simpl.
  - intros [= <-]. now rewrite app_nil_r.
  - rewrite upcoming_step_acc. unfold contribution.
    destruct (upcoming_step today user []) as [l|]; [|discriminate].
    cbn [bind]. intros H. rewrite (IH _ _ H). now rewrite app_assoc.
Qed.

(** X16: When the scan returns, its result is what the records add one by
    one, in the order of the directory; a record adds one item at most,
    so the result is never longer than the directory. *)
Theorem scan_follows_directory_order
        (book : AddressBook) (today : datetime) (res : list entry)
        (Hres : get_upcoming_birthdays book today = Returned res) :
  res = flat_map (contribution today) (dict_values book)
  /\ (forall user, (List.length (contribution today user) <= 1)%nat)
  /\ (List.length res <= List.length book)%nat.
Proof.
  unfold get_upcoming_birthdays in Hres.
  apply upcoming_loop_flat_map in Hres. simpl in Hres.
  split; [exact Hres|]. split; [apply contribution_at_most_one|].
  subst res. unfold dict_values.
  induction book as [|kv rest IH]; simpl; [lia|].
  rewrite length_app.
  pose proof (contribution_at_most_one today (snd kv)). lia.
Qed.

Lemma scan_follows_directory_order_witness :
  let today := mkdatetime (mkdate 2024 6 10) 12 0 0 0 in
  let ann := mkRecord (lit "Ann") [] (Some (mkdate 1990 6 12)) in
  let bob := mkRecord (lit "Bob") [] (Some (mkdate 1985 12 1)) in
  let cy := mkRecord (lit "Cy") [] (Some (mkdate 1970 6 11)) in
  let book := [(lit "Ann", ann); (lit "Bob", bob); (lit "Cy", cy)] in
  get_upcoming_birthdays book today
  = Returned [mkentry (lit "Ann") (lit "2024.06.12");
              mkentry (lit "Cy") (lit "2024.06.11")]
  /\ [mkentry (lit "Ann") (lit "2024.06.12");
      mkentry (lit "Cy") (lit "2024.06.11")]
     = flat_map (contribution today) (dict_values book).
Proof.
  intros today ann bob cy book.
  split; [reflexivity|].
  exact (proj1 (scan_follows_directory_order book today _ eq_refl)).
Defined.

Lemma upcoming_step_window_witness :
  let noon := mkdatetime (mkdate 2024 6 10) 12 0 0 0 in
  let cara := mkRecord (lit "Cara") [] (Some (mkdate 1990 6 18)) in
  calendar_days (mkdate 2024 6 18) noon = 8
  /\ exists e, upcoming_step noon cara [] = Returned [e].
Proof.
  intros noon cara. split; [reflexivity|].
  refine (proj1 (upcoming_step_window noon cara (mkdate 1990 6 18)
                   (midnight (mkdate 2024 6 18))
                   eq_refl _ eq_refl eq_refl eq_refl) _).
  - unfold valid_time; simpl; lia.
  - simpl. unfold calendar_days; simpl. vm_compute. split; discriminate.
Defined.

Lemma days_in_month_february (y : Z) :
  _days_in_month y 2 = if _is_leap y then 29 else 28.
Proof. unfold _days_in_month. simpl. destruct (_is_leap y); reflexivity. Qed.

Lemma days_in_month_other_year (y y' m : Z) :
  m <> 2 -> _days_in_month y m = _days_in_month y' m.
Proof.
  intros H. unfold _days_in_month.
  assert ((m =? 2) = false) as -> by (apply Z.eqb_neq; exact H).
  reflexivity.
Qed.

(** X18: In a year of four digits every stored birthday has its occurrence,
    the same month and day in the year of the clock, but one: 29 February
    in a year that is not a leap year, for which building the occurrence
    raises [ValueError]. *)
Theorem occurrence_missing_only_for_29_february
        (today : datetime) (b : date)
        (Hy : 1000 <= year (dt_date today) <= 9999)
        (Hb : valid_date b = true) :
  birthday_this_year today b
  = if (month b =? 2) && (day b =? 29) && negb (_is_leap (year (dt_date today)))
    then Raised (ValueError DateOutOfRange)
    else Returned (midnight (mkdate (year (dt_date today)) (month b) (day b))).
Proof.
  rewrite (birthday_this_year_valid today b Hy Hb).
  pose proof (valid_date_fields b Hb) as (Hyb & Hm & Hd).
  set (y := year (dt_date today)) in *. unfold new_date.
  destruct (Z.eqb_spec (month b) 2) as [E2|E2].
  - rewrite E2 in *. rewrite days_in_month_february in Hd.
    destruct (Z.eqb_spec (day b) 29) as [E29|E29]; cbn [andb].
    + destruct (_is_leap y) eqn:El; cbn [negb].
      * rewrite valid_date_intro; [reflexivity | lia | lia |].
        rewrite days_in_month_february, El. lia.
      * assert (valid_date (mkdate y 2 (day b)) = false) as ->; [|reflexivity].
        unfold valid_date; simpl. rewrite days_in_month_february, El, E29.
        rewrite !andb_false_iff. right. reflexivity.
    + rewrite valid_date_intro; [reflexivity | lia | lia |].
      rewrite days_in_month_february.
      destruct (_is_leap y), (_is_leap (year b)); lia.
  - cbn [andb]. rewrite valid_date_intro; [reflexivity | lia | lia |].
    rewrite (days_in_month_other_year y (year b) _ E2). lia.
Qed.

Lemma occurrence_missing_only_for_29_february_witness :
  let today := mkdatetime (mkdate 2023 6 10) 12 0 0 0 in
  birthday_this_year today (mkdate 2000 2 29)
  = Raised (ValueError DateOutOfRange)
  /\ birthday_this_year today (mkdate 2000 2 28)
     = Returned (midnight (mkdate 2023 2 28)).
Proof.
  intros today. split.
  - refine (occurrence_missing_only_for_29_february
              today (mkdate 2000 2 29) _ eq_refl). simpl; lia.
  - reflexivity.
Defined.

(** X19: Every date the scan reports is a working day, Monday to Friday, not
    before the day of the clock and not more than ten days after it. *)
Theorem congratulation_date_is_a_near_working_day
        (book : AddressBook) (today : datetime) (res : list entry) (e : entry)
        (Htoday : valid_date (dt_date today) = true)
        (Htime : valid_time today)
        (Hbook : birthdays_valid (dict_values book))
        (Hres : get_upcoming_birthdays book today = Returned res)
        (He : In e res) :
  exists c,
    congratulation_date e = strftime_Ymd (midnight c)
    /\ valid_date c = true
    /\ 0 <= calendar_days c today <= 10
    /\ 0 <= weekday c <= 4.
Proof.
  unfold get_upcoming_birthdays in Hres.
  destruct (upcoming_loop_inv _ _ _ _ Hres e He) as [[]|(user & Hu & Hem)].
  destruct Hem as (b & occ & c & Hb & Ho & Hd & Hc & ->).
  pose proof (Hbook user b Hu Hb) as Hvb.
  destruct (birthday_this_year_built today b occ Htoday Hvb Ho)
    as (-> & Hvo & _).
  set (o := mkdate (year (dt_date today)) (month b) (day b)) in *.
  rewrite (difference_of_midnight o today Htime) in Hd.
  destruct (shift_weekend_spec o Hvo) as (c' & Hc' & Hvc & Hweek & Hwend).
  rewrite Hc' in Hc. injection Hc as <-.
  exists c'. split; [reflexivity|]. split; [exact Hvc|].
  pose proof (weekday_range o) as Hr. unfold calendar_days in *.
  destruct (Z.ltb_spec (weekday o) 5) as [Hw|Hw].
  - rewrite (Hweek Hw). destruct (at_midnight today); lia.
  - destruct (Hwend Hw) as (_ & Hord & Hmon). rewrite Hord, Hmon.
    destruct (at_midnight today); lia.
Qed.

Lemma congratulation_date_is_a_near_working_day_witness :
  let today := mkdatetime (mkdate 2024 6 14) 12 0 0 0 in
  let dan := mkRecord (lit "Dan") [] (Some (mkdate 1990 6 22)) in
  let e := mkentry (lit "Dan") (lit "2024.06.24") in
  get_upcoming_birthdays [(lit "Dan", dan)] today = Returned [e]
  /\ calendar_days (mkdate 2024 6 24) today = 10
  /\ exists c, congratulation_date e = strftime_Ymd (midnight c)
               /\ valid_date c = true
               /\ 0 <= calendar_days c today <= 10
               /\ 0 <= weekday c <= 4.
Proof.
  intros today dan e. split; [reflexivity|]. split; [reflexivity|].
  apply (congratulation_date_is_a_near_working_day
           [(lit "Dan", dan)] today [e] e).
  - reflexivity.
  - unfold valid_time; simpl; lia.
  - intros user b [<-|[]] [= <-]. reflexivity.
  - reflexivity.
  - left; reflexivity.
Defined.

Lemma read_month_day_padded (y m d : Z) :
  1 <= m <= 12 -> 1 <= d <= 31 ->
  exists others,
    re_match [Lit dot; Dir_m; Lit dot; Dir_d] (y, 1, 1)
             (dot :: pad2 m ++ dot :: pad2 d)
    = ((y, m, d), []) :: others.
Proof.
  intros Hm Hd. revert d Hd.
  apply (range_cases
           (fun m => forall d, 1 <= d <= 31 -> exists others,
              re_match [Lit dot; Dir_m; Lit dot; Dir_d] (y, 1, 1)
                       (dot :: pad2 m ++ dot :: pad2 d)
              = ((y, m, d), []) :: others) 1 12); [|lia].
  repeat constructor; intros d Hd;
    apply (range_cases
             (fun d => exists others,
                re_match [Lit dot; Dir_m; Lit dot; Dir_d] (y, 1, 1)
                         (dot :: pad2 _ ++ dot :: pad2 d)
                = ((y, _, d), []) :: others) 1 31); try lia;
    repeat constructor; eexists; lazy; reflexivity.
Qed.

(** X20: The text that [strftime('%Y.%m.%d')] prints for a date of a year of
    four digits is read back by [strptime] with the same format as that
    very date. *)
Theorem printed_date_is_read_back (d : date)
        (Hd : valid_date d = true) (Hy : 1000 <= year d) :
  strptime (strftime_Ymd (midnight d)) fmt_Ymd = Returned (midnight d).
Proof.
  pose proof (valid_date_fields d Hd) as (Hy' & Hm & Hdd).
  pose proof (days_in_month_bounds (year d) (month d) Hm) as Hdim.
  unfold strftime_Ymd, strptime, fmt_Ymd. cbn [dt_date midnight].
  rewrite str_of_int_year, re_match_year_first by lia.
  destruct (read_month_day_padded (year d) (month d) (day d))
    as (others & E); [lia | lia |].
  cbn [app]. rewrite E. unfold new_date.
  destruct d as [y m dd]. cbn [year month day] in *. rewrite Hd. reflexivity.
Qed.

Lemma printed_date_is_read_back_witness :
  strptime (lit "2024.06.17") fmt_Ymd = Returned (midnight (mkdate 2024 6 17)).
Proof.
  refine (printed_date_is_read_back (mkdate 2024 6 17) eq_refl _).
  simpl; lia.
Defined.

(* ================================================================= *)
(** * The listing *)

Lemma join_last (sep : str) (parts : list str) (p : str) :
  join sep (parts ++ [p])
  = match parts with
    | [] => p
    | _ => join sep parts ++ sep ++ p
    end.
Proof.
  induction parts as [|q [|q' rest] IH]; try reflexivity.
  change (join sep ((q :: q' :: rest) ++ [p]))
    with (q ++ sep ++ join sep ((q' :: rest) ++ [p])).
  rewrite IH.
  change (join sep (q :: q' :: rest)) with (q ++ sep ++ join sep (q' :: rest)).
  rewrite <- !app_assoc. reflexivity.
Qed.

(** X21: A contact added under a name the directory did not have is listed
    last by [all], on a line of its own with its name and its phone,
    after the lines that were there. *)
Theorem all_lists_new_contact_last (book : AddressBook) (n p : str)
        (Hp : _validate p = true) (Hnew : dict_get book n = None) :
  let line := lit "Contact name: " ++ n ++ lit ", phones: " ++ p in
  all_text (snd (add_record [n; p] book))
  = match book with
    | [] => line
    | _ => all_text book ++ [10] ++ line
    end.
Proof.
  intros line. rewrite (add_record_valid book n p Hp). cbn [snd].
  rewrite (dict_set_absent _ _ _ Hnew).
  unfold all_text, dict_values. rewrite !map_app. cbn [map snd].
  rewrite join_last.
  assert (E : record_str (mkRecord n [p] None) = line).
  { unfold record_str, line. cbn [birthday name phones join].
    rewrite app_nil_r. reflexivity. }
  rewrite E. destruct book; reflexivity.
Qed.

Lemma all_lists_new_contact_last_witness :
  let ann := mkRecord (lit "Ann") [lit "1111111111"; lit "3333333333"]
                      (Some (mkdate 1990 6 12)) in
  all_text (snd (add_record [lit "Bob"; lit "2222222222"] [(lit "Ann", ann)]))
  = all_text [(lit "Ann", ann)] ++ [10]
    ++ (lit "Contact name: " ++ lit "Bob" ++ lit ", phones: "
        ++ lit "2222222222").
Proof.
  intros ann.
  exact (all_lists_new_contact_last [(lit "Ann", ann)] (lit "Bob")
                                    (lit "2222222222") eq_refl eq_refl).
Defined.

(* ================================================================= *)
(** * The commands of [main] *)

Lemma print_result_answer (r : outcome value * AddressBook) :
  (exists msg, fst r = Returned (VStr msg)) ->
  exists msg, print_result r = Printed msg (snd r).
Proof.
  destruct r as [o book]. simpl. intros (msg & ->). simpl. eauto.
Qed.

(** X22: The command [change] cannot be used as its help says: with any
    number of arguments other than one, three among them, the call
    raises [TypeError] and the program ends with the directory as it
    was; with one argument that has not exactly three characters it
    prints the text for wrong values. *)
Theorem change_command_takes_one_argument
        (args : list str) (today : datetime) (book : AddressBook) :
  (List.length args <> 1%nat ->
   dispatch (lit "change") args today book = Crashed TypeError book)
  /\ (forall n old new,
        dispatch (lit "change") [n; old; new] today book
        = Crashed TypeError book)
  /\ (forall a, List.length a <> 3%nat ->
        dispatch (lit "change") [a] today book
        = Printed give_me_correct_values book).
Proof.
  split; [|split].
  - destruct args as [|a [|b rest]]; simpl; intros H;
      try reflexivity; congruence.
  - reflexivity.
  - intros a Ha.
    change (dispatch (lit "change") [a] today book)
      with (print_result (change_record (map (fun c => [c]) a) book)).
    unfold change_record, input_error, change_record_body.
    destruct a as [|c1 [|c2 [|c3 [|c4 rest]]]]; simpl in *;
      try reflexivity; congruence.
Qed.

Lemma show_birthday_cases (args : list str) (book : AddressBook) :
  snd (show_birthday args book) = book
  /\ ((exists v, fst (show_birthday args book) = Returned v)
      \/ (fst (show_birthday args book) = Raised AttributeError
          /\ exists n rest, args = n :: rest /\ dict_get book n = None)).
Proof.
  unfold show_birthday, input_error, show_birthday_body, find.
  destruct args as [|n rest]; simpl; [eauto|].
  destruct (dict_get book n) as [r|] eqn:E; simpl.
  - destruct (birthday r); simpl; eauto.
  - split; [reflexivity|]. right. split; [reflexivity|]. eauto.
Qed.

Ltac command_case E :=
  match goal with
  | |- context [str_eqb ?c (lit ?l)] =>
      destruct (str_eqb c (lit l)) eqn:E;
      [apply str_eqb_eq in E | clear E]
  end.

(** X23: A turn of the loop never reaches the handler of [ValueError], and it
    ends the program with an exception, the directory unchanged and not
    saved, in four cases only: [change] with a number of arguments other
    than one, [phone] without an argument, [show-birthday] for a name
    that is not in the directory, and [birthdays] when some record has no
    birthday. *)
Theorem crashes_of_a_turn
        (command : str) (args : list str) (today : datetime)
        (book : AddressBook) :
  (forall m book', dispatch command args today book <> PrintedError m book')
  /\ (forall e book',
        dispatch command args today book = Crashed e book' ->
        book' = book
        /\ ((command = lit "change" /\ List.length args <> 1%nat
             /\ e = TypeError)
            \/ (command = lit "phone" /\ args = [] /\ e = Exn IndexError)
            \/ (command = lit "show-birthday" /\ e = Exn AttributeError
                /\ exists n rest, args = n :: rest /\ dict_get book n = None)
            \/ (command = lit "birthdays" /\ e = Exn AttributeError
                /\ exists user, In user (dict_values book)
                                /\ birthday user = None))).
Proof.
  unfold dispatch.
  destruct (str_eqb command (lit "close") || str_eqb command (lit "exit"));
    [split; intros; discriminate|].
  command_case E; [split; intros; discriminate|].
  command_case E.
  { destruct (print_result_answer _ (add_record_answers args book))
      as (msg & ->). split; intros; discriminate. }
  command_case E.
  { destruct args as [|a [|b rest]].
    - split; [intros; discriminate|]. intros e book' [= <- <-].
      split; [reflexivity|]. left. simpl. auto.
    - destruct (print_result_answer _
                  (change_record_answers (map (fun c => [c]) a) book))
        as (msg & ->). split; intros; discriminate.
    - split; [intros; discriminate|]. intros e book' [= <- <-].
      split; [reflexivity|]. left. simpl. auto. }
  command_case E.
  { destruct args as [|n rest]; simpl.
    - split; [intros; discriminate|]. intros e book' [= <- <-].
      split; [reflexivity|]. right; left. auto.
    - split; intros; discriminate. }
  command_case E; [split; intros; discriminate|].
  command_case E.
  { destruct (print_result_answer _ (add_birthday_answers args book))
      as (msg & ->). split; intros; discriminate. }
  command_case E.
  { destruct (show_birthday_cases args book) as (Hs & [(v & Hv)|(Hr & Hn)]);
      destruct (show_birthday args book) as [o b]; simpl in *; subst.
    - split; intros; discriminate.
    - split; [intros; discriminate|]. intros e book' [= <- <-].
      split; [reflexivity|]. right; right; left. auto. }
  command_case E.
  { destruct (birthdays_cases today book) as (Hs & [(v & Hv)|(Hr & Hn)]);
      destruct (birthdays today book) as [o b]; simpl in *; subst.
    - split; intros; discriminate.
    - split; [intros; discriminate|]. intros e book' [= <- <-].
      split; [reflexivity|]. right; right; right. auto. }
  command_case E; split; intros; discriminate.
Qed.

(** X24: After a contact has been added, the command [phone] with its name
    prints the line of the record: the name and the phone that was
    given, whatever the directory held under the name before. *)
Theorem phone_command_prints_added_contact
        (book : AddressBook) (n p : str) (today : datetime)
        (Hp : _validate p = true) :
  dispatch (lit "phone") [n] today (snd (add_record [n; p] book))
  = Printed (lit "Contact name: " ++ n ++ lit ", phones: " ++ p)
            (snd (add_record [n; p] book)).
Proof.
  rewrite (add_record_valid book n p Hp). cbn [snd].
  change (dispatch (lit "phone") [n] today (dict_set book n (mkRecord n [p] None)))
    with (Printed (str_of_value (find (dict_set book n (mkRecord n [p] None)) n))
                  (dict_set book n (mkRecord n [p] None))).
  unfold find. rewrite dict_get_set_same.
  unfold str_of_value, record_str. cbn [birthday name phones join].
  rewrite app_nil_r. reflexivity.
Qed.

Lemma phone_command_prints_added_contact_witness :
  let today := mkdatetime (mkdate 2024 6 10) 12 0 0 0 in
  let old := mkRecord (lit "Bob") [lit "0000000000"] (Some (mkdate 1990 6 12)) in
  dispatch (lit "phone") [lit "Bob"] today
           (snd (add_record [lit "Bob"; lit "1234567890"] [(lit "Bob", old)]))
  = Printed (lit "Contact name: Bob, phones: 1234567890")
            [(lit "Bob", mkRecord (lit "Bob") [lit "1234567890"] None)].
Proof.
  intros today old.
  exact (phone_command_prints_added_contact
           [(lit "Bob", old)] (lit "Bob") (lit "1234567890") today eq_refl).
Defined.
